(** * Code quality hook: the line-oriented scan engine

    A shallow embedding of [code-quality-hook/scripts/code_quality_check.py]:
    the four detectors ([check_function_size], [check_nesting_depth],
    [check_file_size], [check_commented_blocks]) and the part of [main] that
    runs them over the lines of one file and reports what they found.

    A Python [str] is a sequence of Unicode code points, so a line is a
    [list N]; the file, as [readlines] returns it, is a [list (list N)].
    The [re] patterns of the script are values of a small regular-expression
    syntax, run by a backtracking matcher with Python's priorities (leftmost
    start, first alternative, greedy repetition). *)

From Stdlib Require Import NArith Ascii String List Lia PeanoNat Decimal Sorted.
From stdpp Require Import base decidable option list gmap.
Import ListNotations.

Set Default Proof Using "Type".
Local Open Scope nat_scope.

(** ** Characters and strings *)

Abbreviation str := (list N).

(** A literal of the script, one code point per (ASCII) character. *)
Fixpoint s2l (s : string) : str :=
  match s with
  | EmptyString => []
  | String a s' => N_of_ascii a :: s2l s'
  end.

Definition TAB : N := 9%N.
Definition LF : N := 10%N.
Definition SPACE : N := 32%N.

Fixpoint in_ranges (c : N) (rs : list (N * N)) : bool :=
  match rs with
  | [] => false
  | (lo, hi) :: rs' => ((lo <=? c)%N && (c <=? hi)%N) || in_ranges c rs'
  end.

(** The code points Python counts as whitespace ([str.isspace], the class
    [\s] of [re] on [str] patterns, and what [str.strip] removes). *)
Definition whitespace_ranges : list (N * N) :=
  [ (9, 13); (28, 32); (133, 133); (160, 160); (5760, 5760); (8192, 8202);
    (8232, 8233); (8239, 8239); (8287, 8287); (12288, 12288) ]%N.

Definition is_space (c : N) : bool := in_ranges c whitespace_ranges.

Definition ascii_alnum (c : N) : bool :=
  ((48 <=? c) && (c <=? 57) || (65 <=? c) && (c <=? 90) || (97 <=? c) && (c <=? 122))%N.

(** [str.isalnum] above ASCII, as inclusive ranges of code points (the table of
    CPython 3.11, Unicode 14.0). *)
Definition unicode_alnum_ranges : list (N * N) :=
  [
    (170, 170); (178, 179); (181, 181); (185, 186); (188, 190); (192, 214); (216, 246);
    (248, 705); (710, 721); (736, 740); (748, 748); (750, 750); (880, 884); (886, 887);
    (890, 893); (895, 895); (902, 902); (904, 906); (908, 908); (910, 929); (931, 1013);
    (1015, 1153); (1162, 1327); (1329, 1366); (1369, 1369); (1376, 1416); (1488, 1514);
    (1519, 1522); (1568, 1610); (1632, 1641); (1646, 1647); (1649, 1747); (1749, 1749);
    (1765, 1766); (1774, 1788); (1791, 1791); (1808, 1808); (1810, 1839); (1869, 1957);
    (1969, 1969); (1984, 2026); (2036, 2037); (2042, 2042); (2048, 2069); (2074, 2074);
    (2084, 2084); (2088, 2088); (2112, 2136); (2144, 2154); (2160, 2183); (2185, 2190);
    (2208, 2249); (2308, 2361); (2365, 2365); (2384, 2384); (2392, 2401); (2406, 2415);
    (2417, 2432); (2437, 2444); (2447, 2448); (2451, 2472); (2474, 2480); (2482, 2482);
    (2486, 2489); (2493, 2493); (2510, 2510); (2524, 2525); (2527, 2529); (2534, 2545);
    (2548, 2553); (2556, 2556); (2565, 2570); (2575, 2576); (2579, 2600); (2602, 2608);
    (2610, 2611); (2613, 2614); (2616, 2617); (2649, 2652); (2654, 2654); (2662, 2671);
    (2674, 2676); (2693, 2701); (2703, 2705); (2707, 2728); (2730, 2736); (2738, 2739);
    (2741, 2745); (2749, 2749); (2768, 2768); (2784, 2785); (2790, 2799); (2809, 2809);
    (2821, 2828); (2831, 2832); (2835, 2856); (2858, 2864); (2866, 2867); (2869, 2873);
    (2877, 2877); (2908, 2909); (2911, 2913); (2918, 2927); (2929, 2935); (2947, 2947);
    (2949, 2954); (2958, 2960); (2962, 2965); (2969, 2970); (2972, 2972); (2974, 2975);
    (2979, 2980); (2984, 2986); (2990, 3001); (3024, 3024); (3046, 3058); (3077, 3084);
    (3086, 3088); (3090, 3112); (3114, 3129); (3133, 3133); (3160, 3162); (3165, 3165);
    (3168, 3169); (3174, 3183); (3192, 3198); (3200, 3200); (3205, 3212); (3214, 3216);
    (3218, 3240); (3242, 3251); (3253, 3257); (3261, 3261); (3293, 3294); (3296, 3297);
    (3302, 3311); (3313, 3314); (3332, 3340); (3342, 3344); (3346, 3386); (3389, 3389);
    (3406, 3406); (3412, 3414); (3416, 3425); (3430, 3448); (3450, 3455); (3461, 3478);
    (3482, 3505); (3507, 3515); (3517, 3517); (3520, 3526); (3558, 3567); (3585, 3632);
    (3634, 3635); (3648, 3654); (3664, 3673); (3713, 3714); (3716, 3716); (3718, 3722);
    (3724, 3747); (3749, 3749); (3751, 3760); (3762, 3763); (3773, 3773); (3776, 3780);
    (3782, 3782); (3792, 3801); (3804, 3807); (3840, 3840); (3872, 3891); (3904, 3911);
    (3913, 3948); (3976, 3980); (4096, 4138); (4159, 4169); (4176, 4181); (4186, 4189);
    (4193, 4193); (4197, 4198); (4206, 4208); (4213, 4225); (4238, 4238); (4240, 4249);
    (4256, 4293); (4295, 4295); (4301, 4301); (4304, 4346); (4348, 4680); (4682, 4685);
    (4688, 4694); (4696, 4696); (4698, 4701); (4704, 4744); (4746, 4749); (4752, 4784);
    (4786, 4789); (4792, 4798); (4800, 4800); (4802, 4805); (4808, 4822); (4824, 4880);
    (4882, 4885); (4888, 4954); (4969, 4988); (4992, 5007); (5024, 5109); (5112, 5117);
    (5121, 5740); (5743, 5759); (5761, 5786); (5792, 5866); (5870, 5880); (5888, 5905);
    (5919, 5937); (5952, 5969); (5984, 5996); (5998, 6000); (6016, 6067); (6103, 6103);
    (6108, 6108); (6112, 6121); (6128, 6137); (6160, 6169); (6176, 6264); (6272, 6276);
    (6279, 6312); (6314, 6314); (6320, 6389); (6400, 6430); (6470, 6509); (6512, 6516);
    (6528, 6571); (6576, 6601); (6608, 6618); (6656, 6678); (6688, 6740); (6784, 6793);
    (6800, 6809); (6823, 6823); (6917, 6963); (6981, 6988); (6992, 7001); (7043, 7072);
    (7086, 7141); (7168, 7203); (7232, 7241); (7245, 7293); (7296, 7304); (7312, 7354);
    (7357, 7359); (7401, 7404); (7406, 7411); (7413, 7414); (7418, 7418); (7424, 7615);
    (7680, 7957); (7960, 7965); (7968, 8005); (8008, 8013); (8016, 8023); (8025, 8025);
    (8027, 8027); (8029, 8029); (8031, 8061); (8064, 8116); (8118, 8124); (8126, 8126);
    (8130, 8132); (8134, 8140); (8144, 8147); (8150, 8155); (8160, 8172); (8178, 8180);
    (8182, 8188); (8304, 8305); (8308, 8313); (8319, 8329); (8336, 8348); (8450, 8450);
    (8455, 8455); (8458, 8467); (8469, 8469); (8473, 8477); (8484, 8484); (8486, 8486);
    (8488, 8488); (8490, 8493); (8495, 8505); (8508, 8511); (8517, 8521); (8526, 8526);
    (8528, 8585); (9312, 9371); (9450, 9471); (10102, 10131); (11264, 11492); (11499, 11502);
    (11506, 11507); (11517, 11517); (11520, 11557); (11559, 11559); (11565, 11565);
    (11568, 11623); (11631, 11631); (11648, 11670); (11680, 11686); (11688, 11694);
    (11696, 11702); (11704, 11710); (11712, 11718); (11720, 11726); (11728, 11734);
    (11736, 11742); (11823, 11823); (12293, 12295); (12321, 12329); (12337, 12341);
    (12344, 12348); (12353, 12438); (12445, 12447); (12449, 12538); (12540, 12543);
    (12549, 12591); (12593, 12686); (12690, 12693); (12704, 12735); (12784, 12799);
    (12832, 12841); (12872, 12879); (12881, 12895); (12928, 12937); (12977, 12991);
    (13312, 19903); (19968, 42124); (42192, 42237); (42240, 42508); (42512, 42539);
    (42560, 42606); (42623, 42653); (42656, 42735); (42775, 42783); (42786, 42888);
    (42891, 42954); (42960, 42961); (42963, 42963); (42965, 42969); (42994, 43009);
    (43011, 43013); (43015, 43018); (43020, 43042); (43056, 43061); (43072, 43123);
    (43138, 43187); (43216, 43225); (43250, 43255); (43259, 43259); (43261, 43262);
    (43264, 43301); (43312, 43334); (43360, 43388); (43396, 43442); (43471, 43481);
    (43488, 43492); (43494, 43518); (43520, 43560); (43584, 43586); (43588, 43595);
    (43600, 43609); (43616, 43638); (43642, 43642); (43646, 43695); (43697, 43697);
    (43701, 43702); (43705, 43709); (43712, 43712); (43714, 43714); (43739, 43741);
    (43744, 43754); (43762, 43764); (43777, 43782); (43785, 43790); (43793, 43798);
    (43808, 43814); (43816, 43822); (43824, 43866); (43868, 43881); (43888, 44002);
    (44016, 44025); (44032, 55203); (55216, 55238); (55243, 55291); (63744, 64109);
    (64112, 64217); (64256, 64262); (64275, 64279); (64285, 64285); (64287, 64296);
    (64298, 64310); (64312, 64316); (64318, 64318); (64320, 64321); (64323, 64324);
    (64326, 64433); (64467, 64829); (64848, 64911); (64914, 64967); (65008, 65019);
    (65136, 65140); (65142, 65276); (65296, 65305); (65313, 65338); (65345, 65370);
    (65382, 65470); (65474, 65479); (65482, 65487); (65490, 65495); (65498, 65500);
    (65536, 65547); (65549, 65574); (65576, 65594); (65596, 65597); (65599, 65613);
    (65616, 65629); (65664, 65786); (65799, 65843); (65856, 65912); (65930, 65931);
    (66176, 66204); (66208, 66256); (66273, 66299); (66304, 66339); (66349, 66378);
    (66384, 66421); (66432, 66461); (66464, 66499); (66504, 66511); (66513, 66517);
    (66560, 66717); (66720, 66729); (66736, 66771); (66776, 66811); (66816, 66855);
    (66864, 66915); (66928, 66938); (66940, 66954); (66956, 66962); (66964, 66965);
    (66967, 66977); (66979, 66993); (66995, 67001); (67003, 67004); (67072, 67382);
    (67392, 67413); (67424, 67431); (67456, 67461); (67463, 67504); (67506, 67514);
    (67584, 67589); (67592, 67592); (67594, 67637); (67639, 67640); (67644, 67644);
    (67647, 67669); (67672, 67702); (67705, 67742); (67751, 67759); (67808, 67826);
    (67828, 67829); (67835, 67867); (67872, 67897); (67968, 68023); (68028, 68047);
    (68050, 68096); (68112, 68115); (68117, 68119); (68121, 68149); (68160, 68168);
    (68192, 68222); (68224, 68255); (68288, 68295); (68297, 68324); (68331, 68335);
    (68352, 68405); (68416, 68437); (68440, 68466); (68472, 68497); (68521, 68527);
    (68608, 68680); (68736, 68786); (68800, 68850); (68858, 68899); (68912, 68921);
    (69216, 69246); (69248, 69289); (69296, 69297); (69376, 69415); (69424, 69445);
    (69457, 69460); (69488, 69505); (69552, 69579); (69600, 69622); (69635, 69687);
    (69714, 69743); (69745, 69746); (69749, 69749); (69763, 69807); (69840, 69864);
    (69872, 69881); (69891, 69926); (69942, 69951); (69956, 69956); (69959, 69959);
    (69968, 70002); (70006, 70006); (70019, 70066); (70081, 70084); (70096, 70106);
    (70108, 70108); (70113, 70132); (70144, 70161); (70163, 70187); (70272, 70278);
    (70280, 70280); (70282, 70285); (70287, 70301); (70303, 70312); (70320, 70366);
    (70384, 70393); (70405, 70412); (70415, 70416); (70419, 70440); (70442, 70448);
    (70450, 70451); (70453, 70457); (70461, 70461); (70480, 70480); (70493, 70497);
    (70656, 70708); (70727, 70730); (70736, 70745); (70751, 70753); (70784, 70831);
    (70852, 70853); (70855, 70855); (70864, 70873); (71040, 71086); (71128, 71131);
    (71168, 71215); (71236, 71236); (71248, 71257); (71296, 71338); (71352, 71352);
    (71360, 71369); (71424, 71450); (71472, 71483); (71488, 71494); (71680, 71723);
    (71840, 71922); (71935, 71942); (71945, 71945); (71948, 71955); (71957, 71958);
    (71960, 71983); (71999, 71999); (72001, 72001); (72016, 72025); (72096, 72103);
    (72106, 72144); (72161, 72161); (72163, 72163); (72192, 72192); (72203, 72242);
    (72250, 72250); (72272, 72272); (72284, 72329); (72349, 72349); (72368, 72440);
    (72704, 72712); (72714, 72750); (72768, 72768); (72784, 72812); (72818, 72847);
    (72960, 72966); (72968, 72969); (72971, 73008); (73030, 73030); (73040, 73049);
    (73056, 73061); (73063, 73064); (73066, 73097); (73112, 73112); (73120, 73129);
    (73440, 73458); (73648, 73648); (73664, 73684); (73728, 74649); (74752, 74862);
    (74880, 75075); (77712, 77808); (77824, 78894); (82944, 83526); (92160, 92728);
    (92736, 92766); (92768, 92777); (92784, 92862); (92864, 92873); (92880, 92909);
    (92928, 92975); (92992, 92995); (93008, 93017); (93019, 93025); (93027, 93047);
    (93053, 93071); (93760, 93846); (93952, 94026); (94032, 94032); (94099, 94111);
    (94176, 94177); (94179, 94179); (94208, 100343); (100352, 101589); (101632, 101640);
    (110576, 110579); (110581, 110587); (110589, 110590); (110592, 110882); (110928, 110930);
    (110948, 110951); (110960, 111355); (113664, 113770); (113776, 113788); (113792, 113800);
    (113808, 113817); (119520, 119539); (119648, 119672); (119808, 119892); (119894, 119964);
    (119966, 119967); (119970, 119970); (119973, 119974); (119977, 119980); (119982, 119993);
    (119995, 119995); (119997, 120003); (120005, 120069); (120071, 120074); (120077, 120084);
    (120086, 120092); (120094, 120121); (120123, 120126); (120128, 120132); (120134, 120134);
    (120138, 120144); (120146, 120485); (120488, 120512); (120514, 120538); (120540, 120570);
    (120572, 120596); (120598, 120628); (120630, 120654); (120656, 120686); (120688, 120712);
    (120714, 120744); (120746, 120770); (120772, 120779); (120782, 120831); (122624, 122654);
    (123136, 123180); (123191, 123197); (123200, 123209); (123214, 123214); (123536, 123565);
    (123584, 123627); (123632, 123641); (124896, 124902); (124904, 124907); (124909, 124910);
    (124912, 124926); (124928, 125124); (125127, 125135); (125184, 125251); (125259, 125259);
    (125264, 125273); (126065, 126123); (126125, 126127); (126129, 126132); (126209, 126253);
    (126255, 126269); (126464, 126467); (126469, 126495); (126497, 126498); (126500, 126500);
    (126503, 126503); (126505, 126514); (126516, 126519); (126521, 126521); (126523, 126523);
    (126530, 126530); (126535, 126535); (126537, 126537); (126539, 126539); (126541, 126543);
    (126545, 126546); (126548, 126548); (126551, 126551); (126553, 126553); (126555, 126555);
    (126557, 126557); (126559, 126559); (126561, 126562); (126564, 126564); (126567, 126570);
    (126572, 126578); (126580, 126583); (126585, 126588); (126590, 126590); (126592, 126601);
    (126603, 126619); (126625, 126627); (126629, 126633); (126635, 126651); (127232, 127244);
    (130032, 130041); (131072, 173791); (173824, 177976); (177984, 178205); (178208, 183969);
    (183984, 191456); (194560, 195101); (196608, 201546)
  ]%N.

Definition unicode_alnum (c : N) : bool := in_ranges c unicode_alnum_ranges.

(** The class [\w] of [re] on [str] patterns: [str.isalnum] or an underscore. *)
Definition is_word (c : N) : bool :=
  ascii_alnum c || N.eqb c 95 || unicode_alnum c.

(** [str.lstrip()], [str.rstrip()] and [str.strip()] without argument. *)
Fixpoint lstrip (s : str) : str :=
  match s with
  | [] => []
  | c :: s' => if is_space c then lstrip s' else s
  end.

Fixpoint rstrip (s : str) : str :=
  match s with
  | [] => []
  | c :: s' =>
      match rstrip s' with
      | [] => if is_space c then [] else [c]
      | t => c :: t
      end
  end.

Definition strip (s : str) : str := rstrip (lstrip s).

(** [str(n)] for a non-negative [int]. *)
Fixpoint digits (u : Decimal.uint) : str :=
  match u with
  | Nil => []
  | D0 u' => 48%N :: digits u'
  | D1 u' => 49%N :: digits u'
  | D2 u' => 50%N :: digits u'
  | D3 u' => 51%N :: digits u'
  | D4 u' => 52%N :: digits u'
  | D5 u' => 53%N :: digits u'
  | D6 u' => 54%N :: digits u'
  | D7 u' => 55%N :: digits u'
  | D8 u' => 56%N :: digits u'
  | D9 u' => 57%N :: digits u'
  end.

Definition str_of_nat (n : nat) : str := digits (Nat.to_uint n).

(** ** Regular expressions

    The syntax covers what the script's patterns use: [^], one-character
    classes (a literal character, [\s], [\w]), sequence, alternation, and the
    greedy repetition of a one-character class. Groups do not change what
    matches; the one group whose text is read ([group(1)] of the name pattern)
    is handled where it is used. *)

Inductive regex : Type :=
| Eps : regex
| Bol : regex
| Chr : (N -> bool) -> regex
| Seq : regex -> regex -> regex
| Alt : regex -> regex -> regex
| Star : (N -> bool) -> regex.

Definition Plus (p : N -> bool) : regex := Seq (Chr p) (Star p).
Definition Opt (r : regex) : regex := Alt r Eps.

Fixpoint Lit (w : str) : regex :=
  match w with
  | [] => Eps
  | c :: w' => Seq (Chr (N.eqb c)) (Lit w')
  end.

Fixpoint Seqs (rs : list regex) : regex :=
  match rs with
  | [] => Eps
  | r :: rs' => Seq r (Seqs rs')
  end.

Fixpoint Alts (r : regex) (rs : list regex) : regex :=
  match rs with
  | [] => r
  | r' :: rs' => Alt r (Alts r' rs')
  end.

Section Matcher.
Context {A : Type}.

(** Greedy [c*]: the longest run first, then shorter ones. *)
Fixpoint star_run (p : N -> bool) (i : nat) (s : str)
    (k : nat -> str -> option A) : option A :=
  match s with
  | c :: s' =>
      if p c then
        match star_run p (S i) s' k with
        | Some a => Some a
        | None => k i s
        end
      else k i s
  | [] => k i s
  end.

(** [bt r i s k]: match [r] at position [i] against the rest [s] of the
    subject, then continue with [k]; the first success in the matcher's
    order is the answer. *)
Fixpoint bt (r : regex) (i : nat) (s : str)
    (k : nat -> str -> option A) : option A :=
  match r with
  | Eps => k i s
  | Bol => if Nat.eqb i 0 then k i s else None
  | Chr p =>
      match s with
      | c :: s' => if p c then k (S i) s' else None
      | [] => None
      end
  | Seq r1 r2 => bt r1 i s (fun j u => bt r2 j u k)
  | Alt r1 r2 =>
      match bt r1 i s k with
      | Some a => Some a
      | None => bt r2 i s k
      end
  | Star p => star_run p i s k
  end.

(** [re.search]: the leftmost start position at which the pattern matches. *)
Fixpoint search_from (r : regex) (i : nat) (s : str)
    (k : nat -> str -> option A) : option A :=
  match bt r i s k with
  | Some a => Some a
  | None =>
      match s with
      | [] => None
      | _ :: s' => search_from r (S i) s' k
      end
  end.
End Matcher.

(** The truth value of [pattern.search(s)] and of [pattern.match(s)]. *)
Definition re_search (r : regex) (s : str) : bool :=
  bool_decide (is_Some (search_from r 0 s (fun _ _ => Some tt))).

Definition re_match (r : regex) (s : str) : bool :=
  bool_decide (is_Some (bt r 0 s (fun _ _ => Some tt))).

(** ** The patterns of the script *)

(** [func_pattern] of [check_function_size], its tokens set apart by blanks:
    [^ \s* ( def_ | function_ | async_function_ | BINDING | func_ | METHOD )]
    where [_] stands for one space character and
    BINDING is [(?: export \s+ )? (?: async \s+ )? (?: function \s+ )?
                (?: const | let | var ) \s+ \w+ \s* = \s* (?: async \s* )? \(?],
    METHOD is [(?: public | private | protected ) \s+ (?: static \s+ )?
               (?: async \s+ )? \w+ \s* \(]. *)
Definition binding_pattern : regex :=
  Seqs [ Opt (Seq (Lit (s2l "export")) (Plus is_space));
         Opt (Seq (Lit (s2l "async")) (Plus is_space));
         Opt (Seq (Lit (s2l "function")) (Plus is_space));
         Alts (Lit (s2l "const")) [Lit (s2l "let"); Lit (s2l "var")];
         Plus is_space; Plus is_word; Star is_space; Lit (s2l "=");
         Star is_space;
         Opt (Seq (Lit (s2l "async")) (Star is_space));
         Opt (Lit (s2l "(")) ].

Definition method_pattern : regex :=
  Seqs [ Alts (Lit (s2l "public")) [Lit (s2l "private"); Lit (s2l "protected")];
         Plus is_space;
         Opt (Seq (Lit (s2l "static")) (Plus is_space));
         Opt (Seq (Lit (s2l "async")) (Plus is_space));
         Plus is_word; Star is_space; Lit (s2l "(") ].

Definition signature_pattern : regex :=
  Alts (Lit (s2l "def "))
    [ Lit (s2l "function "); Lit (s2l "async function ");
      binding_pattern; Lit (s2l "func "); method_pattern ].

Definition func_pattern : regex :=
  Seqs [ Bol; Star is_space; signature_pattern ].

(** The name pattern [(?: def | function | func | const | let | var ) \s+ ( \w+ )]
    (tokens set apart by blanks), split at its group: what precedes group 1, and
    group 1 itself. *)
Definition name_prefix_pattern : regex :=
  Seq (Alts (Lit (s2l "def"))
         [ Lit (s2l "function"); Lit (s2l "func"); Lit (s2l "const");
           Lit (s2l "let"); Lit (s2l "var") ])
      (Plus is_space).

Definition name_group_pattern : regex := Plus is_word.

(** [code_keywords] of [check_commented_blocks]: one of the words [function],
    [class], [if], [for], [while], [return], [import], [const], [let], [var],
    [def] followed by a space, or one of the characters [;], [{], [}], and the
    two parentheses. *)
Definition code_keywords : regex :=
  Alts (Lit (s2l "function"))
    [ Lit (s2l "class"); Lit (s2l "if"); Lit (s2l "for"); Lit (s2l "while");
      Lit (s2l "return"); Lit (s2l "import"); Lit (s2l "const"); Lit (s2l "let");
      Lit (s2l "var"); Lit (s2l "def "); Lit (s2l ";"); Lit (s2l "{");
      Lit (s2l "}"); Lit (s2l "("); Lit (s2l ")") ].

(** [comment_pattern] of [check_commented_blocks]: [^], [\s*], then one of the
    markers [//], [#], [--], slash-star, or a star. *)
Definition comment_pattern : regex :=
  Seqs [ Bol; Star is_space;
         Alts (Lit (s2l "//"))
           [ Lit (s2l "#"); Lit (s2l "--"); Lit (s2l "/*"); Lit (s2l "*") ] ].

(** ** Thresholds *)

Definition MAX_FUNCTION_LINES : nat := 50.
Definition MAX_NESTING_DEPTH : nat := 4.
Definition MAX_FILE_LINES : nat := 500.
Definition MAX_COMMENTED_BLOCK : nat := 10.

(** ** Violations

    The script reports a violation as a formatted line of text. A [violation]
    holds the values one such f-string interpolates (line indices as the loop
    has them, from 0), and [render] is the f-string. *)

Inductive violation : Type :=
| FunctionTooLong (func_start : nat) (func_name : str) (length : nat)
| NestingTooDeep (i : nat) (depth : nat)
| FileTooLong (total : nat)
| StaleCommentBlock (run_start : nat) (run_length : nat).

Definition render (v : violation) : str :=
  match v with
  | FunctionTooLong func_start func_name length =>
      s2l "  Line " ++ str_of_nat (func_start + 1) ++ s2l ": function '" ++ func_name
        ++ s2l "' is " ++ str_of_nat length ++ s2l " lines (max "
        ++ str_of_nat MAX_FUNCTION_LINES ++ s2l ")"
  | NestingTooDeep i depth =>
      s2l "  Line " ++ str_of_nat (i + 1) ++ s2l ": nesting depth " ++ str_of_nat depth
        ++ s2l " (max " ++ str_of_nat MAX_NESTING_DEPTH ++ s2l ")"
  | FileTooLong total =>
      s2l "  File is " ++ str_of_nat total ++ s2l " lines (max "
        ++ str_of_nat MAX_FILE_LINES ++ s2l ")"
  | StaleCommentBlock run_start run_length =>
      s2l "  Lines " ++ str_of_nat (run_start + 1) ++ s2l "-"
        ++ str_of_nat (run_start + run_length) ++ s2l ": " ++ str_of_nat run_length
        ++ s2l " lines of commented-out code"
  end.

(** ** Outcomes of a call: a value, or a raised exception *)

Inductive exn : Type := TypeError.

Inductive result (A : Type) : Type :=
| Ok (a : A)
| Raise (e : exn).
Arguments Ok {A} a.
Arguments Raise {A} e.

Definition bind {A B : Type} (m : result A) (f : A -> result B) : result B :=
  match m with
  | Ok a => f a
  | Raise e => Raise e
  end.

Notation "'let*' x ':=' m 'in' f" := (bind m (fun x => f))
  (at level 10, x name, m at level 100, f at level 200).

(** [for i, line in enumerate(lines): st = body st i line], from index [i]. *)
Fixpoint for_enumerate {St : Type} (body : St -> nat -> str -> St)
    (i : nat) (lines : list str) (st : St) : St :=
  match lines with
  | [] => st
  | line :: rest => for_enumerate body (S i) rest (body st i line)
  end.

(** ** check_function_size *)

Definition is_func_start (line : str) : bool := re_search func_pattern line.

(** [match = re.search(name pattern, line)];
    [match.group(1) if match else "anonymous"]. *)
Definition extract_name (line : str) : str :=
  match search_from name_prefix_pattern 0 line
          (fun j u => bt name_group_pattern j u (fun j' _ => Some (take (j' - j) u))) with
  | Some name => name
  | None => s2l "anonymous"
  end.

Record fs_state : Type := FsState {
  fs_violations : list violation;
  func_start : option nat;
  func_name : str
}.

(** The check the loop makes when a span closes at line index [stop], and the
    one made after the loop with [stop = len(lines)]. *)
Definition close_span (st : fs_state) (stop : nat) : list violation :=
  match func_start st with
  | Some start =>
      let length := stop - start in
      if MAX_FUNCTION_LINES <? length
      then fs_violations st ++ [FunctionTooLong start (func_name st) length]
      else fs_violations st
  | None => fs_violations st
  end.

Definition fs_body (st : fs_state) (i : nat) (line : str) : fs_state :=
  if is_func_start line
  then FsState (close_span st i) (Some i) (extract_name line)
  else st.

Definition check_function_size (lines : list str) : list violation :=
  let st := for_enumerate fs_body 0 lines (FsState [] None []) in
  close_span st (length lines).

(** ** check_nesting_depth *)

(** [c in s] and [s.count(c)] for a one-character [c]. *)
Fixpoint contains_char (c : N) (s : str) : bool :=
  match s with
  | [] => false
  | c' :: s' => N.eqb c' c || contains_char c s'
  end.

Fixpoint count_char (c : N) (s : str) : nat :=
  match s with
  | [] => 0
  | c' :: s' => (if N.eqb c' c then 1 else 0) + count_char c s'
  end.

(** The depth the loop body computes for a line. *)
Definition nesting_depth (line : str) : nat :=
  let leading := length line - length (lstrip line) in
  if contains_char TAB (take leading line)
  then count_char TAB (take leading line)
  else leading / 4.

Record nd_state : Type := NdState {
  nd_violations : list violation;
  reported_regions : gset nat
}.

Definition nd_body (st : nd_state) (i : nat) (line : str) : nd_state :=
  let stripped := rstrip line in
  match stripped with
  | [] => st
  | _ :: _ =>
      let depth := nesting_depth line in
      if MAX_NESTING_DEPTH <? depth then
        let region := i / 10 in
        if decide (region ∈ reported_regions st) then st
        else NdState (nd_violations st ++ [NestingTooDeep i depth])
                     ({[region]} ∪ reported_regions st)
      else st
  end.

Definition check_nesting_depth (lines : list str) : list violation :=
  nd_violations (for_enumerate nd_body 0 lines (NdState [] ∅)).

(** ** check_file_size *)

Definition check_file_size (lines : list str) : list violation :=
  if MAX_FILE_LINES <? length lines then [FileTooLong (length lines)] else [].

(** ** check_commented_blocks *)

Definition is_code_comment (line : str) : bool :=
  let stripped := strip line in
  re_match comment_pattern stripped && re_search code_keywords stripped.

Record cb_state : Type := CbState {
  cb_violations : list violation;
  run_start : option nat;
  run_length : nat
}.

(** The check made when a run ends. Its f-string evaluates [run_start + 1],
    which raises [TypeError] should [run_start] be [None]. *)
Definition flush_run (st : cb_state) : result (list violation) :=
  if MAX_COMMENTED_BLOCK <=? run_length st then
    match run_start st with
    | Some start => Ok (cb_violations st ++ [StaleCommentBlock start (run_length st)])
    | None => Raise TypeError
    end
  else Ok (cb_violations st).

Definition cb_body (st : cb_state) (i : nat) (line : str) : result cb_state :=
  if is_code_comment line then
    Ok (CbState (cb_violations st)
                (match run_start st with None => Some i | Some start => Some start end)
                (run_length st + 1))
  else
    let* violations := flush_run st in
    Ok (CbState violations None 0).

(** The same loop for a body that may raise: the exception ends the loop. *)
Fixpoint for_enumerate_try {St : Type} (body : St -> nat -> str -> result St)
    (i : nat) (lines : list str) (st : St) : result St :=
  match lines with
  | [] => Ok st
  | line :: rest =>
      let* st' := body st i line in
      for_enumerate_try body (S i) rest st'
  end.

Definition check_commented_blocks (lines : list str) : result (list violation) :=
  let* st := for_enumerate_try cb_body 0 lines (CbState [] None 0) in
  flush_run st.

(** ** main, from the point where the lines of the file are read

    [run_detectors] is the sequence of the four [violations.extend(...)] calls,
    for any four callees: no call is guarded by [try], so an exception raised
    by one leaves [main] at once. [collect_violations] is that sequence with the
    script's own detectors. *)

Definition detector : Type := list str -> result (list violation).

Definition run_detectors (d1 d2 d3 d4 : detector) (lines : list str)
    : result (list violation) :=
  let violations := [] in
  let* v1 := d1 lines in
  let violations := violations ++ v1 in
  let* v2 := d2 lines in
  let violations := violations ++ v2 in
  let* v3 := d3 lines in
  let violations := violations ++ v3 in
  let* v4 := d4 lines in
  let violations := violations ++ v4 in
  Ok violations.

Definition returns (f : list str -> list violation) : detector :=
  fun lines => Ok (f lines).

Definition collect_violations (lines : list str) : result (list violation) :=
  run_detectors (returns check_function_size) (returns check_nesting_depth)
                (returns check_file_size) check_commented_blocks lines.

(** What [main] writes to [stderr], line by line, and its exit status. *)
Record outcome : Type := Outcome {
  stderr : list str;
  exit_code : nat
}.

(** [if violations:], the truth value of a list. *)
Definition has_violations (violations : list violation) : bool :=
  match violations with
  | [] => false
  | _ :: _ => true
  end.

Definition report (basename : str) (violations : list violation) : outcome :=
  if has_violations violations
  then Outcome ((s2l "Code quality issues in " ++ basename ++ s2l ":")
                  :: map render violations) 2
  else Outcome [] 0.

Definition main_scan (basename : str) (lines : list str) : result outcome :=
  let* violations := collect_violations lines in
  Ok (report basename violations).

(** ** should_skip *)

Definition SKIP_PATTERNS : list str :=
  [ s2l "node_modules"; s2l "vendor"; s2l "dist/"; s2l "build/"; s2l ".min.";
    s2l "__pycache__"; s2l ".pyc" ].

Definition SKIP_TEST_PATTERNS : list str :=
  [ s2l "test"; s2l "spec"; s2l "_test.go"; s2l "_spec.rb"; s2l ".test."; s2l ".spec." ].

(** [s.startswith(pattern)] and [pattern in s] for two strings. *)
Fixpoint str_startswith (pattern s : str) : bool :=
  match pattern, s with
  | [], _ => true
  | _ :: _, [] => false
  | c :: pattern', d :: s' => N.eqb c d && str_startswith pattern' s'
  end.

Fixpoint str_in (pattern s : str) : bool :=
  str_startswith pattern s ||
  match s with
  | [] => false
  | _ :: s' => str_in pattern s'
  end.

(** [for pattern in patterns: if pattern in lower: return True]; [false] when
    the loop ends without returning. *)
Fixpoint any_pattern_in (patterns : list str) (lower : str) : bool :=
  match patterns with
  | [] => false
  | pattern :: rest => if str_in pattern lower then true else any_pattern_in rest lower
  end.

(** [should_skip]. Python's [str.lower] (the Unicode lower-casing of the
    interpreter) is the argument [str_lower]. *)
Definition should_skip (str_lower : str -> str) (file_path : str) : bool :=
  let lower := str_lower file_path in
  if any_pattern_in SKIP_PATTERNS lower then true
  else if any_pattern_in SKIP_TEST_PATTERNS lower then true
  else false.

(** [str.lower] on a string of ASCII characters. *)
Definition ascii_lower (s : str) : str :=
  map (fun c => if ((65 <=? c) && (c <=? 90))%N then (c + 32)%N else c) s.

(** ** main

    What [main] reads of the world: the value [json.load(sys.stdin)] returns
    (or that it raises [JSONDecodeError]), whether a path is a regular file,
    the lines [readlines] returns for it (or that opening or reading raises
    [OSError]), the interpreter's [str.lower] and [os.path.basename]. A standard
    input that cannot be read or decoded at all, which [main] does not handle,
    is outside this model. *)

(** A value parsed from JSON. Of a number [main] only ever tests whether it
    is zero, and a number is kept as that test. An object is kept as the
    entries of the [dict], one per key. *)
#[local] Unset Elimination Schemes.
Inductive json : Type :=
| JNull
| JBool (b : bool)
| JNumber (nonzero : bool)
| JString (s : str)
| JArray (items : list json)
| JObject (entries : list (str * json)).
#[local] Set Elimination Schemes.

Inductive stdin_result : Type :=
| Parsed (data : json)
| JSONDecodeError.

Record world : Type := World {
  stdin : stdin_result;
  isfile : str -> bool;
  readlines : str -> option (list str);
  str_lower : str -> str;
  basename : str -> str
}.

(** How the process ends: [sys.exit(code)] after writing [err] to stderr, or
    an exception nothing catches (the interpreter prints a traceback and the
    status is 1). *)
Inductive uncaught : Type :=
| AttributeError
| FromDetector (e : exn).

Inductive termination : Type :=
| Exited (code : nat) (err : list str)
| Traceback (e : uncaught).

(** [d.get(key, default)] on the entries of a [dict]. *)
Fixpoint dict_get (entries : list (str * json)) (key : str) (default : json) : json :=
  match entries with
  | [] => default
  | (k, v) :: rest => if bool_decide (k = key) then v else dict_get rest key default
  end.

(** The truth value of a parsed value. *)
Definition truthy (v : json) : bool :=
  match v with
  | JNull => false
  | JBool b => b
  | JNumber nonzero => nonzero
  | JString s => match s with [] => false | _ :: _ => true end
  | JArray items => match items with [] => false | _ :: _ => true end
  | JObject entries => match entries with [] => false | _ :: _ => true end
  end.

(** [tool_name in ("Edit", "Write")]. *)
Definition is_edit_or_write (tool_name : json) : bool :=
  match tool_name with
  | JString s => bool_decide (s = s2l "Edit") || bool_decide (s = s2l "Write")
  | _ => false
  end.

Definition main (w : world) : termination :=
  match stdin w with
  | JSONDecodeError => Exited 1 []
  | Parsed data =>
      match data with
      | JObject entries =>
          let tool_name := dict_get entries (s2l "tool_name") (JString []) in
          let tool_input := dict_get entries (s2l "tool_input") (JObject []) in
          if negb (is_edit_or_write tool_name) then Exited 0 []
          else
            match tool_input with
            | JObject input_entries =>
                let file_path := dict_get input_entries (s2l "file_path") (JString []) in
                if negb (truthy file_path) then Exited 0 []
                else
                  match file_path with
                  | JString path =>
                      if should_skip (str_lower w) path then Exited 0 []
                      else if negb (isfile w path) then Exited 0 []
                      else
                        match readlines w path with
                        | None => Exited 0 []
                        | Some lines =>
                            match main_scan (basename w path) lines with
                            | Ok out => Exited (exit_code out) (stderr out)
                            | Raise e => Traceback (FromDetector e)
                            end
                        end
                  | _ => Traceback AttributeError
                  end
            | _ => Traceback AttributeError
            end
      | _ => Traceback AttributeError
      end
  end.

(** * The vocabulary of the properties *)

(** ** What the matcher accepts

    [lang r i w]: the pattern [r], started at position [i] of the subject, can
    match exactly the characters [w]. *)

Definition all_of (p : N -> bool) (w : str) : Prop := Forall (fun c => p c = true) w.

Fixpoint lang (r : regex) (i : nat) (w : str) : Prop :=
  match r with
  | Eps => w = []
  | Bol => i = 0 /\ w = []
  | Chr p => exists c, w = [c] /\ p c = true
  | Seq r1 r2 => exists w1 w2, w = w1 ++ w2 /\ lang r1 i w1 /\ lang r2 (i + length w1) w2
  | Alt r1 r2 => lang r1 i w \/ lang r2 i w
  | Star p => all_of p w
  end.

(** A continuation succeeds after some match of [r] at [(i, s)]. *)
Definition accepts {A : Type} (r : regex) (i : nat) (s : str)
    (k : nat -> str -> option A) : Prop :=
  exists w u, s = w ++ u /\ lang r i w /\ is_Some (k (i + length w) u).

(** ** The shape of a function-start line *)

Definition blanks (w : str) : Prop := all_of is_space w.
Definition blanks1 (w : str) : Prop := w <> [] /\ all_of is_space w.
Definition identifier (w : str) : Prop := w <> [] /\ all_of is_word w.
Definition starts_with (v : str) (s : str) : Prop := exists tail, s = v ++ tail.

(** An optional word followed by at least one whitespace character, or nothing. *)
Definition optional_word (kw : string) (w : str) : Prop :=
  w = [] \/ exists sp, w = s2l kw ++ sp /\ blanks1 sp.

(** [(export )?(async )?(function )?(const|let|var) NAME =], whatever follows. *)
Definition binding_shape (s : str) : Prop :=
  exists e a f kw s1 name s2 tail,
    s = e ++ a ++ f ++ kw ++ s1 ++ name ++ s2 ++ s2l "=" ++ tail /\
    optional_word "export" e /\ optional_word "async" a /\ optional_word "function" f /\
    (kw = s2l "const" \/ kw = s2l "let" \/ kw = s2l "var") /\
    blanks1 s1 /\ identifier name /\ blanks s2.

(** [(public|private|protected) (static )?(async )?NAME (], whatever follows. *)
Definition method_shape (s : str) : Prop :=
  exists vis s1 st a name s2 tail,
    s = vis ++ s1 ++ st ++ a ++ name ++ s2 ++ s2l "(" ++ tail /\
    (vis = s2l "public" \/ vis = s2l "private" \/ vis = s2l "protected") /\
    blanks1 s1 /\ optional_word "static" st /\ optional_word "async" a /\
    identifier name /\ blanks s2.

Definition signature_shape (s : str) : Prop :=
  starts_with (s2l "def ") s \/ starts_with (s2l "function ") s \/
  starts_with (s2l "async function ") s \/ binding_shape s \/
  starts_with (s2l "func ") s \/ method_shape s.

Definition func_start_shape (line : str) : Prop :=
  exists ws rest, line = ws ++ rest /\ blanks ws /\ signature_shape rest.

(** The signature family as the specification words it: the binding form has
    no [export], [async] or [function] prefix and requires the opening
    parenthesis after the [=]. *)
Definition claimed_binding_pattern : regex :=
  Seqs [ Alts (Lit (s2l "const")) [Lit (s2l "let"); Lit (s2l "var")];
         Plus is_space; Plus is_word; Star is_space; Lit (s2l "=");
         Star is_space;
         Opt (Seq (Lit (s2l "async")) (Star is_space));
         Lit (s2l "(") ].

Definition claimed_func_pattern : regex :=
  Seqs [ Bol; Star is_space;
         Alts (Lit (s2l "def "))
           [ Lit (s2l "function "); Lit (s2l "async function ");
             claimed_binding_pattern; Lit (s2l "func "); method_pattern ] ].

Definition claimed_func_start (line : str) : bool := re_search claimed_func_pattern line.

(** ** Function spans

    [check_function_size] keeps no list of spans: a span exists when the loop
    closes it, at the next start or after the last line, and is measured
    there. [function_spans] is the same loop recording each span it closes. *)

Record span : Type := Span {
  span_name : str;
  start_line : nat;
  end_line : nat
}.

Definition span_length (sp : span) : nat := end_line sp - start_line sp.

Record span_state : Type := SpanState {
  closed_spans : list span;
  open_span : option (nat * str)
}.

Definition close_open (st : span_state) (stop : nat) : list span :=
  match open_span st with
  | Some (start, name) => closed_spans st ++ [Span name start stop]
  | None => closed_spans st
  end.

Definition span_body (st : span_state) (i : nat) (line : str) : span_state :=
  if is_func_start line
  then SpanState (close_open st i) (Some (i, extract_name line))
  else st.

Definition function_spans (lines : list str) : list span :=
  close_open (for_enumerate span_body 0 lines (SpanState [] None)) (length lines).

Definition too_long (sp : span) : bool := MAX_FUNCTION_LINES <? span_length sp.

Definition span_violation (sp : span) : violation :=
  FunctionTooLong (start_line sp) (span_name sp) (span_length sp).

(** The two loops run in step. *)
Definition same_progress (fs : fs_state) (st : span_state) : Prop :=
  fs_violations fs = map span_violation (List.filter too_long (closed_spans st)) /\
  match open_span st with
  | Some (start, name) => func_start fs = Some start /\ func_name fs = name
  | None => func_start fs = None
  end.

(** The state of the loop of [check_function_size] after the first [n] lines
    of the file, and the state of the span loop at the same point. *)
Definition fs_loop_after (lines : list str) (n : nat) : fs_state :=
  for_enumerate fs_body 0 (take n lines) (FsState [] None []).

Definition span_loop_after (lines : list str) (n : nat) : span_state :=
  for_enumerate span_body 0 (take n lines) (SpanState [] None).

(** The start lines of a file, by index, and the spans they delimit. *)
Fixpoint start_indices (i : nat) (lines : list str) : list nat :=
  match lines with
  | [] => []
  | line :: rest =>
      if is_func_start line then i :: start_indices (S i) rest
      else start_indices (S i) rest
  end.

Definition next_start (i : nat) (rest : list str) (eof : nat) : nat :=
  hd eof (start_indices i rest).

Fixpoint spans_from (i : nat) (lines : list str) (eof : nat) : list span :=
  match lines with
  | [] => []
  | line :: rest =>
      if is_func_start line
      then Span (extract_name line) i (next_start (S i) rest eof) :: spans_from (S i) rest eof
      else spans_from (S i) rest eof
  end.

(** What one span of the file covers. *)
Definition covers (lines : list str) (offset : nat) (sp : span) : Prop :=
  start_line sp < end_line sp /\
  (exists line : str, lines !! (start_line sp - offset) = Some line /\
     is_func_start line = true /\ span_name sp = extract_name line) /\
  (forall j (l : str), start_line sp < j < end_line sp ->
     lines !! (j - offset) = Some l -> is_func_start l = false).

(** The file of the scenario: [def foo():] and 59 lines of body. *)
Definition sixty_line_function : list str :=
  (s2l "def foo():" ++ [LF]) :: repeat (s2l "    pass" ++ [LF]) 59.

(** ** Leading whitespace and the depth of a line *)

(** The lines for which the loop body reaches the region test. *)
Definition is_deep (line : str) : bool :=
  match rstrip line with
  | [] => false
  | _ :: _ => MAX_NESTING_DEPTH <? nesting_depth line
  end.

(** The region of a nesting violation. *)
Definition region_of (v : violation) : nat :=
  match v with
  | NestingTooDeep i _ => i / 10
  | _ => 0
  end.

Record nd_inv (seen : list str) (st : nd_state) : Prop := NdInv {
  inv_hits : forall v, In v (nd_violations st) ->
    exists j (l : str), v = NestingTooDeep j (nesting_depth l) /\
      seen !! j = Some l /\ is_deep l = true;
  inv_regions : forall r, r ∈ reported_regions st <->
    exists v, In v (nd_violations st) /\ region_of v = r;
  inv_nodup : NoDup (map region_of (nd_violations st));
  inv_deep : forall j (l : str), seen !! j = Some l -> is_deep l = true ->
    j / 10 ∈ reported_regions st
}.

(** The depth estimate as the specification words it: without a tab in the
    leading-whitespace run, the number of space characters (U+0020) in it,
    divided by 4. *)
Definition claimed_nesting_depth (line : str) : nat :=
  let run := take (length line - length (lstrip line)) line in
  if contains_char TAB run then count_char TAB run else count_char SPACE run / 4.

(** A line that starts with 20 form feeds (U+000C), then [x]. *)
Definition form_feed_line : str := repeat 12%N 20 ++ s2l "x" ++ [LF].

(** ** Runs of commented-out code *)

(** Line [j] of the file exists and is a comment that looks like code. *)
Definition code_comment_at (lines : list str) (j : nat) : bool :=
  match lines !! j with
  | Some line => is_code_comment line
  | None => false
  end.

(** [n] consecutive lines from index [s] on, all comments that look like code,
    that cannot be extended at either end. *)
Definition maximal_run (lines : list str) (s n : nat) : Prop :=
  0 < n /\
  (forall j, s <= j < s + n -> code_comment_at lines j = true) /\
  (s = 0 \/ code_comment_at lines (s - 1) = false) /\
  code_comment_at lines (s + n) = false.

(** The runs that end at or after line [i], given the length [pending] of the
    run that reaches line [i]. *)
Fixpoint runs_from (i : nat) (lines : list str) (pending : nat) : list (nat * nat) :=
  match lines with
  | [] => if 0 <? pending then [(i - pending, pending)] else []
  | line :: rest =>
      if is_code_comment line then runs_from (S i) rest (S pending)
      else (if 0 <? pending then [(i - pending, pending)] else [])
           ++ runs_from (S i) rest 0
  end.

Definition long_run (r : nat * nat) : bool := MAX_COMMENTED_BLOCK <=? snd r.

Definition run_violation (r : nat * nat) : violation :=
  StaleCommentBlock (fst r) (snd r).

(** The pending run of a prefix: its last [pending] lines are comments that
    look like code, and the line before them, if any, is not. *)
Definition pending_run (seen : list str) (pending : nat) : Prop :=
  pending <= length seen /\
  (forall j, length seen - pending <= j < length seen -> code_comment_at seen j = true) /\
  (pending = length seen \/ code_comment_at seen (length seen - pending - 1) = false).

(** The comment markers and the signals of code, as the two patterns list them. *)
Definition comment_markers : list str :=
  [s2l "//"; s2l "#"; s2l "--"; s2l "/*"; s2l "*"].

Definition code_signals : list str :=
  [ s2l "function"; s2l "class"; s2l "if"; s2l "for"; s2l "while"; s2l "return";
    s2l "import"; s2l "const"; s2l "let"; s2l "var"; s2l "def "; s2l ";"; s2l "{";
    s2l "}"; s2l "("; s2l ")" ].

(** The file of the scenario: 12 lines [# import foo], then a prose comment. *)
Definition twelve_commented_lines : list str :=
  repeat (s2l "# import foo" ++ [LF]) 12 ++ [s2l "# A plain remark." ++ [LF]].

(** The test of a line as the specification words it: the line, after optional
    leading whitespace, begins with a comment marker, and one of the signals
    occurs in the line. *)
Definition claimed_code_comment (line : str) : bool :=
  re_match comment_pattern line && re_search code_keywords line.

(** A comment whose only signal is [def] with its blank, the blank being the
    last character before the end of the line; and twelve such lines. *)
Definition def_comment_line : str := s2l "# def " ++ [LF].

Definition twelve_def_comments : list str := repeat def_comment_line 12.

(** ** The properties on small files *)

Definition two_function_file : list str :=
  [ s2l "import os" ++ [LF]; s2l "def f():" ++ [LF]; s2l "    return 1" ++ [LF];
    s2l "def g():" ++ [LF]; s2l "    return 2" ++ [LF] ].

(** Twelve lines of commented-out code, each under 5 tabs. *)
Definition deep_commented_file : list str :=
  repeat (repeat TAB 5 ++ s2l "# import foo" ++ [LF]) 12.

(** ** Skipped paths and the front of main *)

(** [pattern] occurs somewhere in [s]. *)
Definition occurs (pattern s : str) : Prop :=
  exists before after, s = before ++ pattern ++ after.

Definition is_object (v : json) : bool :=
  match v with
  | JObject _ => true
  | _ => false
  end.

Definition is_string (v : json) : bool :=
  match v with
  | JString _ => true
  | _ => false
  end.

(** The header line [main] writes before the violations. *)
Definition header (name : str) : str :=
  s2l "Code quality issues in " ++ name ++ s2l ":".

(** ** The name of a function *)

(** The keywords of the name pattern, in its order. *)
Definition name_keywords : list str :=
  [ s2l "def"; s2l "function"; s2l "func"; s2l "const"; s2l "let"; s2l "var" ].

(** [name] stands in [line] after a keyword and at least one whitespace
    character. *)
Definition named_after_keyword (line name : str) : Prop :=
  exists before kw ws after,
    line = before ++ kw ++ ws ++ name ++ after /\
    In kw name_keywords /\ blanks1 ws /\ identifier name.

(** Nothing, or something that does not begin with a word character. *)
Definition ends_word (tail : str) : Prop :=
  match tail with
  | [] => True
  | c :: _ => is_word c = false
  end.

(** A file name and an input that asks for a scan of that file. *)
Definition edit_request (path : str) : json :=
  JObject [ (s2l "tool_name", JString (s2l "Edit"));
            (s2l "tool_input", JObject [ (s2l "file_path", JString path) ]) ].

Definition sample_world (data : stdin_result) (lines : list str) : world :=
  World data (fun _ => true) (fun _ => Some lines) ascii_lower (fun _ => s2l "app.py").

(** ** Which lines the nesting detector cites *)

(** A line the loop does not skip and whose depth is above the maximum. *)
Definition too_deep (line : str) : Prop :=
  rstrip line <> [] /\ MAX_NESTING_DEPTH < nesting_depth line.

(** The line index a nesting violation cites. *)
Definition cited_index (v : violation) : nat :=
  match v with
  | NestingTooDeep i _ => i
  | _ => 0
  end.

Record first_inv (seen : list str) (st : nd_state) : Prop := FirstInv {
  first_deep : forall j d, In (NestingTooDeep j d) (nd_violations st) ->
    forall j' (l' : str), j' < j -> seen !! j' = Some l' -> is_deep l' = true ->
      j' / 10 <> j / 10;
  in_order : StronglySorted lt (map cited_index (nd_violations st));
  below : Forall (fun v => cited_index v < length seen) (nd_violations st)
}.

(** ** Lines that differ in surrounding whitespace *)

(** [padded] is [line] with whitespace added in front and behind. *)
Definition padding_of (line padded : str) : Prop :=
  exists ws ws', blanks ws /\ blanks ws' /\ padded = ws ++ line ++ ws'.

(** ** Lines in front of the first function *)

(** A span, and a function-size violation, moved down by [n] lines. *)
Definition shift_span (n : nat) (sp : span) : span :=
  Span (span_name sp) (n + start_line sp) (n + end_line sp).

Definition shift_violation (n : nat) (v : violation) : violation :=
  match v with
  | FunctionTooLong start name length => FunctionTooLong (n + start) name length
  | other => other
  end.

(** What the first sample input makes [main] write. *)
Definition sample_report : list str :=
  [ s2l "Code quality issues in app.py:";
    s2l "  Line 1: nesting depth 5 (max 4)";
    s2l "  Line 11: nesting depth 5 (max 4)";
    s2l "  Lines 1-12: 12 lines of commented-out code" ].

(** * Properties *)

(** ** What the matcher accepts *)

Section MatcherSpec.
Context {A : Type}.
Implicit Types (k : nat -> str -> option A).

Lemma is_Some_first (x y : option A) :
  is_Some (match x with Some a => Some a | None => y end) <-> is_Some x \/ is_Some y.
Proof.
  destruct x as [a|]; split; intros H.
  - left; eauto.
  - eauto.
  - right; exact H.
  - destruct H as [[a Ha]|H]; [discriminate | exact H].
Qed.

Lemma star_run_spec p i s k :
  is_Some (star_run p i s k) <-> accepts (Star p) i s k.
Proof.
  unfold accepts. revert i. induction s as [|c s IH]; intros i; simpl.
  - split.
    + intros H. exists [], []. rewrite Nat.add_0_r. repeat split; [constructor | exact H].
    + intros (w & u & E & _ & H). symmetry in E. apply app_eq_nil in E as [-> ->].
      simpl in H. rewrite Nat.add_0_r in H. exact H.
  - destruct (p c) eqn:Hc.
    + rewrite is_Some_first, IH. split.
      * intros [(w & u & -> & Hw & H) | H].
        -- exists (c :: w), u. repeat split; [constructor; assumption|].
           simpl. rewrite Nat.add_succ_r. exact H.
        -- exists [], (c :: s). rewrite Nat.add_0_r. repeat split; [constructor | exact H].
      * intros (w & u & E & Hw & H). destruct w as [|c' w].
        -- right. simpl in E. subst u. simpl in H. rewrite Nat.add_0_r in H. exact H.
        -- left. simpl in E. injection E as -> ->. exists w, u.
           repeat split; [inversion Hw; assumption|].
           simpl in H. rewrite Nat.add_succ_r in H. exact H.
    + split.
      * intros H. exists [], (c :: s). rewrite Nat.add_0_r. repeat split; [constructor | exact H].
      * intros (w & u & E & Hw & H). destruct w as [|c' w].
        -- simpl in E. subst u. simpl in H. rewrite Nat.add_0_r in H. exact H.
        -- simpl in E. injection E as -> ->. inversion Hw; congruence.
Qed.

Lemma bt_spec r : forall i s k, is_Some (bt r i s k) <-> accepts r i s k.
Proof.
  unfold accepts.
  induction r as [| |p|r1 IH1 r2 IH2|r1 IH1 r2 IH2|p]; intros i s k; simpl.
  - split.
    + intros H. exists [], s. rewrite Nat.add_0_r. auto.
    + intros (w & u & -> & -> & H). simpl in H. rewrite Nat.add_0_r in H. exact H.
  - destruct (Nat.eqb_spec i 0) as [->|Hi].
    + split.
      * intros H. exists [], s. auto.
      * intros (w & u & -> & (_ & ->) & H). exact H.
    + split.
      * intros [a Ha]; discriminate.
      * intros (w & u & _ & (Hi' & _) & _). contradiction.
  - destruct s as [|c s].
    + split.
      * intros [a Ha]; discriminate.
      * intros (w & u & E & (c & -> & _) & _). discriminate.
    + destruct (p c) eqn:Hc.
      * split.
        -- intros H. exists [c], s. repeat split; [eauto|].
           simpl. rewrite Nat.add_1_r. exact H.
        -- intros (w & u & E & (c' & -> & _) & H). injection E as -> ->.
           simpl in H. rewrite Nat.add_1_r in H. exact H.
      * split.
        -- intros [a Ha]; discriminate.
        -- intros (w & u & E & (c' & -> & Hc') & _). injection E as -> ->. congruence.
  - rewrite IH1. split.
    + intros (w1 & u1 & -> & H1 & H). apply IH2 in H as (w2 & u2 & -> & H2 & H).
      exists (w1 ++ w2), u2. rewrite <- app_assoc. repeat split.
      * exists w1, w2. auto.
      * rewrite length_app, Nat.add_assoc. exact H.
    + intros (w & u & -> & (w1 & w2 & -> & H1 & H2) & H).
      exists w1, (w2 ++ u). rewrite <- app_assoc. repeat split; [exact H1|].
      apply IH2. exists w2, u. repeat split; [exact H2|].
      rewrite length_app, Nat.add_assoc in H. exact H.
  - rewrite is_Some_first, IH1, IH2. split.
    + intros [(w & u & -> & H1 & H) | (w & u & -> & H2 & H)]; exists w, u; auto.
    + intros (w & u & -> & [H1|H2] & H); [left|right]; exists w, u; auto.
  - apply star_run_spec.
Qed.

Lemma search_from_spec r : forall s i k,
  is_Some (search_from r i s k) <->
  exists pre rest, s = pre ++ rest /\ accepts r (i + length pre) rest k.
Proof.
  induction s as [|c s IH]; intros i k; simpl; rewrite is_Some_first, bt_spec.
  - split.
    + intros [H | [a Ha]]; [|discriminate]. exists [], []. rewrite Nat.add_0_r. auto.
    + intros (pre & rest & E & H). symmetry in E. apply app_eq_nil in E as [-> ->].
      simpl in H. rewrite Nat.add_0_r in H. auto.
  - rewrite IH. split.
    + intros [H | (pre & rest & -> & H)].
      * exists [], (c :: s). rewrite Nat.add_0_r. auto.
      * exists (c :: pre), rest. simpl. rewrite Nat.add_succ_r. auto.
    + intros (pre & rest & E & H). destruct pre as [|c' pre].
      * left. simpl in E. subst rest. simpl in H. rewrite Nat.add_0_r in H. exact H.
      * right. simpl in E. injection E as -> ->. exists pre, rest.
        simpl in H. rewrite Nat.add_succ_r in H. auto.
Qed.

End MatcherSpec.

Lemma re_match_spec r s :
  re_match r s = true <-> exists w u, s = w ++ u /\ lang r 0 w.
Proof.
  unfold re_match. rewrite bool_decide_eq_true, bt_spec. unfold accepts. split.
  - intros (w & u & -> & H & _). eauto.
  - intros (w & u & -> & H). exists w, u. repeat split; eauto.
Qed.

Lemma re_search_spec r s :
  re_search r s = true <-> exists pre w u, s = pre ++ w ++ u /\ lang r (length pre) w.
Proof.
  unfold re_search. rewrite bool_decide_eq_true, search_from_spec. unfold accepts. split.
  - intros (pre & rest & -> & w & u & -> & H & _). eauto.
  - intros (pre & w & u & -> & H). exists pre, (w ++ u). split; [reflexivity|].
    exists w, u. repeat split; eauto.
Qed.

Lemma lang_Lit v i w : lang (Lit v) i w <-> w = v.
Proof.
  revert i w. induction v as [|c v IH]; intros i w; simpl.
  - reflexivity.
  - split.
    + intros (w1 & w2 & -> & (c' & -> & Hc) & H2). apply IH in H2 as ->.
      apply N.eqb_eq in Hc as ->. reflexivity.
    + intros ->. exists [c], v. repeat split.
      * exists c. split; [reflexivity | apply N.eqb_refl].
      * apply IH. reflexivity.
Qed.

Lemma lang_Plus p i w : lang (Plus p) i w <-> w <> [] /\ all_of p w.
Proof.
  unfold Plus, all_of. simpl. split.
  - intros (w1 & w2 & -> & (c & -> & Hc) & H2). split; [discriminate|].
    constructor; assumption.
  - intros [Hne Hall]. destruct w as [|c w]; [contradiction|].
    inversion Hall; subst. exists [c], w. repeat split; eauto.
Qed.

Lemma lang_Opt r i w : lang (Opt r) i w <-> w = [] \/ lang r i w.
Proof. unfold Opt. simpl. tauto. Qed.

(** ** The shape of a function-start line *)

Lemma lang_optional_word kw i w :
  lang (Opt (Seq (Lit (s2l kw)) (Plus is_space))) i w <-> optional_word kw w.
Proof.
  rewrite lang_Opt. unfold optional_word, blanks1. cbn [lang]. split.
  - intros [-> | (w1 & w2 & -> & H1 & H2)]; [left; reflexivity | right].
    apply lang_Lit in H1 as ->. apply lang_Plus in H2. eauto.
  - intros [-> | (sp & -> & Hsp)]; [left; reflexivity | right].
    exists (s2l kw), sp. repeat split; [apply lang_Lit; reflexivity | apply lang_Plus; exact Hsp].
Qed.

Lemma lang_one_of_three a b c i w :
  lang (Alts (Lit a) [Lit b; Lit c]) i w <-> w = a \/ w = b \/ w = c.
Proof. cbn [Alts lang]. rewrite !lang_Lit. reflexivity. Qed.

Lemma prefix_match_Lit v i s :
  (exists w u, s = w ++ u /\ lang (Lit v) i w) <-> starts_with v s.
Proof.
  unfold starts_with. split.
  - intros (w & u & -> & H). apply lang_Lit in H as ->. eauto.
  - intros (tail & ->). exists v, tail. split; [reflexivity | apply lang_Lit; reflexivity].
Qed.

Lemma prefix_match_binding i s :
  (exists w u, s = w ++ u /\ lang binding_pattern i w) <-> binding_shape s.
Proof.
  unfold binding_pattern, binding_shape. cbn [Seqs]. split.
  - intros (w & u & -> & H). cbn [lang] in H.
    destruct H as (e & ? & -> & He & a & ? & -> & Ha & f & ? & -> & Hf & kw & ? & -> & Hkw
                   & s1 & ? & -> & Hs1 & name & ? & -> & Hname & s2 & ? & -> & Hs2
                   & eq & t & -> & Heq & _).
    apply lang_optional_word in He, Ha, Hf. apply lang_one_of_three in Hkw.
    apply lang_Plus in Hs1, Hname. apply lang_Lit in Heq as ->.
    exists e, a, f, kw, s1, name, s2, (t ++ u).
    split; [rewrite <- !app_assoc; reflexivity|].
    unfold blanks1, identifier, blanks. tauto.
  - intros (e & a & f & kw & s1 & name & s2 & tail & -> & He & Ha & Hf & Hkw & Hs1 & Hname & Hs2).
    exists (e ++ a ++ f ++ kw ++ s1 ++ name ++ s2 ++ s2l "="), tail.
    split; [rewrite <- !app_assoc; reflexivity|].
    cbn [lang].
    exists e, (a ++ f ++ kw ++ s1 ++ name ++ s2 ++ s2l "=").
    split; [reflexivity|]. split; [apply lang_optional_word; exact He|].
    exists a, (f ++ kw ++ s1 ++ name ++ s2 ++ s2l "=").
    split; [reflexivity|]. split; [apply lang_optional_word; exact Ha|].
    exists f, (kw ++ s1 ++ name ++ s2 ++ s2l "=").
    split; [reflexivity|]. split; [apply lang_optional_word; exact Hf|].
    exists kw, (s1 ++ name ++ s2 ++ s2l "=").
    split; [reflexivity|]. split; [apply lang_one_of_three; exact Hkw|].
    exists s1, (name ++ s2 ++ s2l "=").
    split; [reflexivity|]. split; [apply lang_Plus; exact Hs1|].
    exists name, (s2 ++ s2l "=").
    split; [reflexivity|]. split; [apply lang_Plus; exact Hname|].
    exists s2, (s2l "=").
    split; [reflexivity|]. split; [exact Hs2|].
    exists (s2l "="), [].
    split; [reflexivity|]. split; [apply lang_Lit; reflexivity|].
    exists [], []. split; [reflexivity|]. split; [constructor|].
    exists [], []. split; [reflexivity|]. split; [apply lang_Opt; left; reflexivity|].
    exists [], []. split; [reflexivity|]. split; [apply lang_Opt; left; reflexivity|].
    reflexivity.
Qed.

Lemma prefix_match_method i s :
  (exists w u, s = w ++ u /\ lang method_pattern i w) <-> method_shape s.
Proof.
  unfold method_pattern, method_shape. cbn [Seqs]. split.
  - intros (w & u & -> & H). cbn [lang] in H.
    destruct H as (vis & ? & -> & Hvis & s1 & ? & -> & Hs1 & st & ? & -> & Hst
                   & a & ? & -> & Ha & name & ? & -> & Hname & s2 & ? & -> & Hs2
                   & par & t & -> & Hpar & ->).
    apply lang_one_of_three in Hvis. apply lang_optional_word in Hst, Ha.
    apply lang_Plus in Hs1, Hname. apply lang_Lit in Hpar as ->.
    exists vis, s1, st, a, name, s2, u.
    split; [rewrite <- !app_assoc; reflexivity|].
    unfold blanks1, identifier, blanks. tauto.
  - intros (vis & s1 & st & a & name & s2 & tail & -> & Hvis & Hs1 & Hst & Ha & Hname & Hs2).
    exists (vis ++ s1 ++ st ++ a ++ name ++ s2 ++ s2l "("), tail.
    split; [rewrite <- !app_assoc; reflexivity|].
    cbn [lang].
    exists vis, (s1 ++ st ++ a ++ name ++ s2 ++ s2l "(").
    split; [reflexivity|]. split; [apply lang_one_of_three; exact Hvis|].
    exists s1, (st ++ a ++ name ++ s2 ++ s2l "(").
    split; [reflexivity|]. split; [apply lang_Plus; exact Hs1|].
    exists st, (a ++ name ++ s2 ++ s2l "(").
    split; [reflexivity|]. split; [apply lang_optional_word; exact Hst|].
    exists a, (name ++ s2 ++ s2l "(").
    split; [reflexivity|]. split; [apply lang_optional_word; exact Ha|].
    exists name, (s2 ++ s2l "(").
    split; [reflexivity|]. split; [apply lang_Plus; exact Hname|].
    exists s2, (s2l "(").
    split; [reflexivity|]. split; [exact Hs2|].
    exists (s2l "("), [].
    split; [reflexivity|]. split; [apply lang_Lit; reflexivity|].
    reflexivity.
Qed.

Lemma prefix_match_signature i s :
  (exists w u, s = w ++ u /\ lang signature_pattern i w) <-> signature_shape s.
Proof.
  unfold signature_pattern, signature_shape. cbn [Alts lang].
  rewrite <- !(prefix_match_Lit _ i), <- (prefix_match_binding i), <- (prefix_match_method i).
  split.
  - intros (w & u & -> & H).
    repeat (destruct H as [H|H]; [eauto 12|right]). eauto.
  - intros H.
    repeat (destruct H as [(w & u & -> & H)|H]; [exists w, u; tauto|]).
    destruct H as (w & u & -> & H). exists w, u. tauto.
Qed.

(** C2, counterexample. The lines [const x = 5] and [export const f = (] are
    function starts for [check_function_size], and neither belongs to the
    signature family as the claim lists it. *)
Lemma func_start_outside_claimed_family :
  is_func_start (s2l "const x = 5") = true /\
  claimed_func_start (s2l "const x = 5") = false /\
  is_func_start (s2l "export const f = (") = true /\
  claimed_func_start (s2l "export const f = (") = false.
Proof. vm_compute. repeat split. Qed.

(** C2, as amended. A line is a candidate function start when and only when,
    after optional leading whitespace, it begins with [def ], [function ],
    [async function ] or [func ]; or with a binding
    [(export )?(async )?(function )?(const|let|var) NAME =], whatever follows
    the [=]; or with a method signature
    [(public|private|protected) (static )?(async )?NAME (]. *)
Theorem func_start_signature_family (line : str) :
  is_func_start line = true <->
  exists ws rest, line = ws ++ rest /\ blanks ws /\
    (starts_with (s2l "def ") rest \/ starts_with (s2l "function ") rest \/
     starts_with (s2l "async function ") rest \/ binding_shape rest \/
     starts_with (s2l "func ") rest \/ method_shape rest).
Proof.
  change (is_func_start line = true <-> func_start_shape line).
  unfold is_func_start, func_start_shape. rewrite re_search_spec.
  unfold func_pattern. cbn [Seqs lang]. split.
  - intros (pre & w & u & -> & w1 & w2 & -> & (Hpre & ->) & ws & w4 & -> & Hws
            & sig & w6 & -> & Hsig & ->).
    apply length_zero_iff_nil in Hpre as ->.
    exists ws, (sig ++ u). split; [simpl; rewrite app_nil_r, <- app_assoc; reflexivity|].
    split; [exact Hws|]. apply (prefix_match_signature (0 + 0 + length ws)). eauto.
  - intros (ws & rest & -> & Hws & Hsig).
    apply (prefix_match_signature (0 + 0 + length ws)) in Hsig as (sig & u & -> & Hsig).
    exists [], (ws ++ sig), u. split; [simpl; rewrite <- app_assoc; reflexivity|].
    exists [], (ws ++ sig). repeat split.
    exists ws, sig. repeat split; [exact Hws|].
    exists sig, []. rewrite app_nil_r. auto.
Qed.

(** ** Function spans *)

Lemma close_span_close_open fs st stop :
  same_progress fs st ->
  close_span fs stop = map span_violation (List.filter too_long (close_open st stop)).
Proof.
  intros [Hv Ho]. unfold close_span, close_open.
  destruct (open_span st) as [[start name]|].
  - destruct Ho as [-> <-]. rewrite List.filter_app, map_app, <- Hv. simpl.
    unfold too_long, span_length. simpl.
    destruct (MAX_FUNCTION_LINES <? stop - start); simpl.
    + reflexivity.
    + rewrite app_nil_r. reflexivity.
  - rewrite Ho. exact Hv.
Qed.

Lemma same_progress_step fs st i line :
  same_progress fs st -> same_progress (fs_body fs i line) (span_body st i line).
Proof.
  intros H. unfold fs_body, span_body. destruct (is_func_start line); [|exact H].
  split; simpl; [apply close_span_close_open; exact H | auto].
Qed.

Lemma same_progress_loop lines : forall i fs st,
  same_progress fs st ->
  same_progress (for_enumerate fs_body i lines fs) (for_enumerate span_body i lines st).
Proof.
  induction lines as [|line rest IH]; intros i fs st H; simpl.
  - exact H.
  - apply IH, same_progress_step, H.
Qed.

Lemma check_function_size_spans lines :
  check_function_size lines =
  map span_violation (List.filter too_long (function_spans lines)).
Proof.
  unfold check_function_size, function_spans.
  apply close_span_close_open, same_progress_loop. split; reflexivity.
Qed.

Lemma span_loop_spans_from eof lines : forall i st,
  close_open (for_enumerate span_body i lines st) eof =
  closed_spans st
  ++ match open_span st with
     | Some (start, name) => [Span name start (next_start i lines eof)]
     | None => []
     end
  ++ spans_from i lines eof.
Proof.
  induction lines as [|line rest IH]; intros i st; simpl.
  - unfold close_open, next_start. simpl.
    destruct (open_span st) as [[start name]|]; simpl; rewrite ?app_nil_r; reflexivity.
  - unfold next_start at 1. simpl.
    replace (span_body st i line) with
      (if is_func_start line
       then SpanState (close_open st i) (Some (i, extract_name line)) else st)
      by reflexivity.
    destruct (is_func_start line) eqn:Hl; simpl.
    + rewrite IH. simpl. unfold close_open.
      destruct (open_span st) as [[start name]|]; simpl;
        rewrite <- ?app_assoc; reflexivity.
    + rewrite IH. reflexivity.
Qed.

Lemma function_spans_spans_from lines :
  function_spans lines = spans_from 0 lines (length lines).
Proof. unfold function_spans. rewrite span_loop_spans_from. reflexivity. Qed.

Lemma lookup_shift (line : str) (rest : list str) i j :
  S i <= j -> (line :: rest) !! (j - i) = rest !! (j - S i).
Proof. intros H. replace (j - i) with (S (j - S i)) by lia. reflexivity. Qed.

Lemma next_start_bounds lines : forall i eof,
  eof = i + length lines -> i <= next_start i lines eof <= eof.
Proof.
  unfold next_start. induction lines as [|line rest IH]; intros i eof Heof; simpl in *.
  - lia.
  - destruct (is_func_start line); simpl.
    + lia.
    + specialize (IH (S i) eof). lia.
Qed.

Lemma next_start_first eof lines : forall i j (l : str),
  i <= j < next_start i lines eof -> lines !! (j - i) = Some l ->
  is_func_start l = false.
Proof.
  unfold next_start. induction lines as [|line rest IH]; intros i j l Hj Hl.
  - rewrite lookup_nil in Hl. discriminate.
  - simpl in Hj. destruct (is_func_start line) eqn:Hline; simpl in Hj.
    + lia.
    + destruct (decide (j = i)) as [->|Hne].
      * rewrite Nat.sub_diag in Hl. simpl in Hl. congruence.
      * rewrite lookup_shift in Hl by lia. apply (IH (S i) j); [lia | exact Hl].
Qed.

Lemma next_start_head eof lines : forall i,
  next_start i lines eof =
  match spans_from i lines eof with
  | sp :: _ => start_line sp
  | [] => eof
  end.
Proof.
  unfold next_start. induction lines as [|line rest IH]; intros i; simpl.
  - reflexivity.
  - destruct (is_func_start line); simpl; [reflexivity | apply IH].
Qed.

Lemma next_start_le eof lines : forall i sp,
  In sp (spans_from i lines eof) -> next_start i lines eof <= start_line sp.
Proof.
  unfold next_start. induction lines as [|line rest IH]; intros i sp Hin; simpl in *.
  - contradiction.
  - assert (Hge : forall sp', In sp' (spans_from (S i) rest eof) -> S i <= start_line sp').
    { clear. revert i. induction rest as [|l r IHr]; intros i sp' H; simpl in H.
      - contradiction.
      - destruct (is_func_start l); [destruct H as [<-|H]; [simpl; lia|]|];
          apply IHr in H; lia. }
    destruct (is_func_start line); simpl.
    + destruct Hin as [<-|Hin]; [simpl; lia | apply Hge in Hin; lia].
    + apply IH, Hin.
Qed.

Lemma spans_from_count eof lines : forall i,
  length (spans_from i lines eof) = length (List.filter is_func_start lines).
Proof.
  induction lines as [|line rest IH]; intros i; simpl.
  - reflexivity.
  - destruct (is_func_start line); simpl; rewrite IH; reflexivity.
Qed.

Lemma spans_from_covers lines : forall i eof sp,
  eof = i + length lines ->
  In sp (spans_from i lines eof) ->
  i <= start_line sp /\ end_line sp <= eof /\ covers lines i sp.
Proof.
  induction lines as [|line rest IH]; intros i eof sp Heof Hin; simpl in Hin.
  - contradiction.
  - simpl in Heof.
    assert (Hrest : In sp (spans_from (S i) rest eof) ->
                    i <= start_line sp /\ end_line sp <= eof /\
                    covers (line :: rest) i sp).
    { intros H. apply IH in H as (H1 & H2 & H3 & (l & Hl & Hs & Hn) & H4); [|lia].
      repeat split; try lia.
      - exists l. rewrite lookup_shift by lia. auto.
      - intros j l' Hj Hl'. rewrite lookup_shift in Hl' by lia. eapply H4; eauto. }
    destruct (is_func_start line) eqn:Hline; [|auto].
    destruct Hin as [<-|Hin]; [|auto].
    assert (Hb := next_start_bounds rest (S i) eof ltac:(lia)).
    repeat split; simpl; try lia.
    + exists line. rewrite Nat.sub_diag. auto.
    + intros j l Hj Hl. rewrite lookup_shift in Hl by lia.
      apply (next_start_first eof rest (S i) j l); [lia | exact Hl].
Qed.

Lemma spans_from_adjacent eof lines : forall i k sp,
  spans_from i lines eof !! k = Some sp ->
  end_line sp = match spans_from i lines eof !! S k with
                | Some next => start_line next
                | None => eof
                end.
Proof.
  induction lines as [|line rest IH]; intros i k sp Hk; simpl in *.
  - rewrite lookup_nil in Hk. discriminate.
  - destruct (is_func_start line).
    + destruct k as [|k]; simpl in *.
      * injection Hk as <-. simpl. rewrite next_start_head.
        destruct (spans_from (S i) rest eof); reflexivity.
      * apply IH, Hk.
    + apply IH, Hk.
Qed.

Lemma spans_from_disjoint eof lines : forall i k k' sp sp',
  k < k' ->
  spans_from i lines eof !! k = Some sp -> spans_from i lines eof !! k' = Some sp' ->
  end_line sp <= start_line sp'.
Proof.
  induction lines as [|line rest IH]; intros i k k' sp sp' Hlt Hk Hk'; simpl in *.
  - rewrite lookup_nil in Hk. discriminate.
  - destruct (is_func_start line).
    + destruct k' as [|k']; [lia|]. destruct k as [|k]; simpl in *.
      * injection Hk as <-. simpl. apply next_start_le.
        apply list_elem_of_In, list_elem_of_lookup. eauto.
      * apply (IH (S i) k k'); [lia | assumption..].
    + apply (IH (S i) k k'); assumption.
Qed.

Lemma spans_from_complete eof lines : forall i j (l : str),
  lines !! j = Some l -> is_func_start l = true ->
  exists sp, In sp (spans_from i lines eof) /\ start_line sp = i + j.
Proof.
  induction lines as [|line rest IH]; intros i j l Hl Hs.
  - rewrite lookup_nil in Hl. discriminate.
  - destruct j as [|j]; simpl in *.
    + injection Hl as ->. rewrite Hs. eexists. split; [left; reflexivity|]. simpl. lia.
    + destruct (IH (S i) j l Hl Hs) as (sp & Hin & Hsp).
      exists sp. split; [|lia]. destruct (is_func_start line); [right|]; exact Hin.
Qed.

Lemma start_indices_none lines : forall i,
  (forall l, In l lines -> is_func_start l = false) -> start_indices i lines = [].
Proof.
  induction lines as [|line rest IH]; intros i H; simpl.
  - reflexivity.
  - rewrite (H line) by (left; reflexivity). apply IH. intros l Hl. apply H. right. exact Hl.
Qed.

Lemma spans_from_none eof lines : forall i,
  (forall l, In l lines -> is_func_start l = false) -> spans_from i lines eof = [].
Proof.
  induction lines as [|line rest IH]; intros i H; simpl.
  - reflexivity.
  - rewrite (H line) by (left; reflexivity). apply IH. intros l Hl. apply H. right. exact Hl.
Qed.

Lemma spans_from_skip eof pre lines : forall i,
  (forall l, In l pre -> is_func_start l = false) ->
  spans_from i (pre ++ lines) eof = spans_from (i + length pre) lines eof.
Proof.
  induction pre as [|line rest IH]; intros i H; simpl.
  - rewrite Nat.add_0_r. reflexivity.
  - rewrite (H line) by (left; reflexivity). rewrite IH.
    + f_equal. lia.
    + intros l Hl. apply H. right. exact Hl.
Qed.

Lemma def_line_is_func_start tail : is_func_start (s2l "def " ++ tail) = true.
Proof. reflexivity. Qed.

Lemma single_function_spans pre first body :
  (forall l, In l pre -> is_func_start l = false) ->
  is_func_start first = true ->
  (forall l, In l body -> is_func_start l = false) ->
  function_spans (pre ++ first :: body) =
  [Span (extract_name first) (length pre) (length pre + S (length body))].
Proof.
  intros Hpre Hfirst Hbody. rewrite function_spans_spans_from, spans_from_skip by exact Hpre.
  simpl. rewrite Hfirst, spans_from_none by exact Hbody.
  unfold next_start. rewrite start_indices_none by exact Hbody. simpl.
  rewrite length_app. reflexivity.
Qed.

(** C3. The violations of [check_function_size] are, in order, one for each
    function span whose length is strictly above [MAX_FUNCTION_LINES], and
    none for any other span; each cites the span's start line, name and
    length. A file whose only function start is a [def ] line followed by 59
    lines yields exactly one violation, citing that line and the length 60. *)
Theorem function_too_long_iff_span_exceeds :
  (forall lines : list str,
     check_function_size lines =
     map (fun sp => FunctionTooLong (start_line sp) (span_name sp) (span_length sp))
         (List.filter (fun sp => MAX_FUNCTION_LINES <? span_length sp)
                      (function_spans lines))) /\
  (forall (pre : list str) (tail : str) (body : list str),
     (forall l, In l pre -> is_func_start l = false) ->
     (forall l, In l body -> is_func_start l = false) ->
     length body = 59 ->
     function_spans (pre ++ (s2l "def " ++ tail) :: body) =
       [Span (extract_name (s2l "def " ++ tail)) (length pre) (length pre + 60)] /\
     check_function_size (pre ++ (s2l "def " ++ tail) :: body) =
       [FunctionTooLong (length pre) (extract_name (s2l "def " ++ tail)) 60]) /\
  (forall (start : nat) (name : str),
     render (FunctionTooLong start name 60) =
     s2l "  Line " ++ str_of_nat (start + 1) ++ s2l ": function '" ++ name
       ++ s2l "' is 60 lines (max 50)").
Proof.
  split; [exact check_function_size_spans|]. split.
  - intros pre tail body Hpre Hbody Hlen.
    assert (Hspans := single_function_spans pre (s2l "def " ++ tail) body
                        Hpre (def_line_is_func_start tail) Hbody).
    rewrite Hlen in Hspans. split; [exact Hspans|].
    rewrite check_function_size_spans, Hspans.
    generalize (extract_name (s2l "def " ++ tail)) as name. intros name.
    unfold too_long, span_violation, span_length. cbn [List.filter start_line end_line].
    replace (length pre + 60 - length pre) with 60 by lia.
    change (MAX_FUNCTION_LINES <? 60) with true.
    cbn [map start_line end_line span_name]. do 2 f_equal. lia.
  - intros start name. reflexivity.
Qed.

(** The scenario of C3 on a concrete file. *)
Lemma function_too_long_sixty_lines :
  check_function_size sixty_line_function = [FunctionTooLong 0 (s2l "foo") 60] /\
  map render (check_function_size sixty_line_function) =
    [s2l "  Line 1: function 'foo' is 60 lines (max 50)"].
Proof.
  assert (H : check_function_size sixty_line_function = [FunctionTooLong 0 (s2l "foo") 60]).
  { apply (proj2 (proj1 (proj2 function_too_long_iff_span_exceeds)
                   [] (s2l "foo():" ++ [LF]) (repeat (s2l "    pass" ++ [LF]) 59)
                   ltac:(intros l [])
                   ltac:(intros l Hl; apply repeat_spec in Hl; subst l; reflexivity)
                   ltac:(apply repeat_length))). }
  split; [exact H|]. rewrite H. reflexivity.
Defined.

Lemma for_enumerate_app {St : Type} (body : St -> nat -> str -> St) (l1 : list str) :
  forall i l2 st,
    for_enumerate body i (l1 ++ l2) st =
    for_enumerate body (i + length l1) l2 (for_enumerate body i l1 st).
Proof.
  induction l1 as [|x l1 IH]; intros i l2 st; simpl.
  - rewrite Nat.add_0_r. reflexivity.
  - rewrite IH. replace (S i + length l1) with (i + S (length l1)) by lia. reflexivity.
Qed.

Lemma fs_loop_after_all lines : forall n, length lines <= n ->
  fs_loop_after lines n = for_enumerate fs_body 0 lines (FsState [] None []).
Proof.
  intros n Hn. unfold fs_loop_after. rewrite take_ge by exact Hn. reflexivity.
Qed.

Lemma fs_loop_after_step lines n (line : str) :
  lines !! n = Some line ->
  fs_loop_after lines (S n) = fs_body (fs_loop_after lines n) n line.
Proof.
  intros Hline. unfold fs_loop_after.
  rewrite (take_S_r lines n line Hline), for_enumerate_app. simpl.
  rewrite length_take, Nat.min_l; [reflexivity|].
  apply lookup_lt_Some in Hline. lia.
Qed.

(** The variables [func_start] and [func_name] of the loop hold the last start
    line seen so far and the name taken from it. *)
Lemma fs_loop_tracks_last_start lines : forall n,
  match func_start (fs_loop_after lines n) with
  | Some start =>
      start < n /\
      (exists line : str, lines !! start = Some line /\ is_func_start line = true /\
         func_name (fs_loop_after lines n) = extract_name line) /\
      (forall j (l : str), start < j < n -> lines !! j = Some l -> is_func_start l = false)
  | None => forall j (l : str), j < n -> lines !! j = Some l -> is_func_start l = false
  end.
Proof.
  induction n as [|n IH].
  - unfold fs_loop_after. rewrite take_0. simpl. intros j l Hj. lia.
  - destruct (lines !! n) as [line|] eqn:Hline.
    + rewrite (fs_loop_after_step lines n line Hline). unfold fs_body.
      destruct (is_func_start line) eqn:Hstart.
      * cbn [func_start func_name]. split; [lia|]. split; [eauto|].
        intros j l Hj. lia.
      * destruct (func_start (fs_loop_after lines n)) as [start|].
        -- destruct IH as (Hlt & Hat & Hin). split; [lia|]. split; [exact Hat|].
           intros j l Hj Hl. destruct (decide (j = n)) as [->|Hne].
           ++ congruence.
           ++ apply (Hin j l); [lia | exact Hl].
        -- intros j l Hj Hl. destruct (decide (j = n)) as [->|Hne].
           ++ congruence.
           ++ apply (IH j l); [lia | exact Hl].
    + apply lookup_ge_None in Hline.
      rewrite (fs_loop_after_all lines (S n)) by lia.
      rewrite (fs_loop_after_all lines n) in IH by lia.
      destruct (func_start _) as [start|].
      * destruct IH as (Hlt & Hat & Hin). split; [lia|]. split; [exact Hat|].
        intros j l Hj Hl. destruct (decide (j = n)) as [->|Hne].
        -- apply lookup_lt_Some in Hl. lia.
        -- apply (Hin j l); [lia | exact Hl].
      * intros j l Hj Hl. destruct (decide (j = n)) as [->|Hne].
        -- apply lookup_lt_Some in Hl. lia.
        -- apply (IH j l); [lia | exact Hl].
Qed.

(** C8. The spans are those of the loop of [check_function_size]: after every
    number of lines the loop's [func_start] and [func_name] are the start and
    the name of the span that is open, which is the last start line seen;
    what the loop measures when it closes a span at a line, or after the last
    line, is that span; and the violations returned are those of the spans
    that are too long. The loop closes one span per recognized start line;
    every start line opens a span; a span runs from its start line to the next
    recognized start line, exclusive, or to the end of the file for the last
    one, with no start line strictly inside; and two different spans never
    overlap. *)
Theorem function_spans_cover_starts (lines : list str) :
  length (function_spans lines) = length (List.filter is_func_start lines) /\
  (forall j (l : str), lines !! j = Some l -> is_func_start l = true ->
     exists sp, In sp (function_spans lines) /\ start_line sp = j) /\
  (forall k sp, function_spans lines !! k = Some sp ->
     start_line sp < end_line sp /\ end_line sp <= length lines /\
     (exists line : str, lines !! start_line sp = Some line /\
        is_func_start line = true /\ span_name sp = extract_name line) /\
     (forall j (l : str), start_line sp < j < end_line sp ->
        lines !! j = Some l -> is_func_start l = false) /\
     end_line sp = match function_spans lines !! S k with
                   | Some next => start_line next
                   | None => length lines
                   end) /\
  (forall k k' sp sp', k < k' ->
     function_spans lines !! k = Some sp -> function_spans lines !! k' = Some sp' ->
     end_line sp <= start_line sp') /\
  (forall n : nat,
     func_start (fs_loop_after lines n) = option_map fst (open_span (span_loop_after lines n)) /\
     (forall start name, open_span (span_loop_after lines n) = Some (start, name) ->
        func_name (fs_loop_after lines n) = name) /\
     fs_violations (fs_loop_after lines n) =
       map span_violation (List.filter too_long (closed_spans (span_loop_after lines n))) /\
     (forall stop : nat,
        close_span (fs_loop_after lines n) stop =
        map span_violation
            (List.filter too_long (close_open (span_loop_after lines n) stop)))) /\
  (forall n : nat,
     match func_start (fs_loop_after lines n) with
     | Some start =>
         start < n /\
         (exists line : str, lines !! start = Some line /\ is_func_start line = true /\
            func_name (fs_loop_after lines n) = extract_name line) /\
         (forall j (l : str), start < j < n ->
            lines !! j = Some l -> is_func_start l = false)
     | None => forall j (l : str), j < n -> lines !! j = Some l -> is_func_start l = false
     end) /\
  function_spans lines =
    close_open (span_loop_after lines (length lines)) (length lines) /\
  check_function_size lines =
    close_span (fs_loop_after lines (length lines)) (length lines) /\
  check_function_size lines =
    map (fun sp => FunctionTooLong (start_line sp) (span_name sp)
                                   (end_line sp - start_line sp))
        (List.filter (fun sp => MAX_FUNCTION_LINES <? end_line sp - start_line sp)
                     (function_spans lines)).
Proof.
  split; [|split; [|split; [|split; [|split; [|split; [|split; [|split]]]]]]].
  - rewrite function_spans_spans_from. apply spans_from_count.
  - rewrite function_spans_spans_from.
    intros j l Hl Hs. apply (spans_from_complete (length lines) lines 0 j l Hl Hs).
  - rewrite function_spans_spans_from. intros k sp Hk.
    assert (Hin : In sp (spans_from 0 lines (length lines))).
    { apply list_elem_of_In, list_elem_of_lookup. eauto. }
    apply spans_from_covers in Hin as (_ & Hend & Hlt & (line & Hline & Hs & Hn) & Hinside);
      [|reflexivity].
    rewrite Nat.sub_0_r in Hline.
    split; [exact Hlt|]. split; [exact Hend|]. split; [eauto|]. split.
    + intros j l Hj Hl. apply (Hinside j l Hj). rewrite Nat.sub_0_r. exact Hl.
    + apply spans_from_adjacent, Hk.
  - rewrite function_spans_spans_from. intros k k' sp sp'. apply spans_from_disjoint.
  - intros n.
    assert (Hstep : same_progress (fs_loop_after lines n) (span_loop_after lines n)).
    { apply same_progress_loop. split; reflexivity. }
    assert (Hclose := fun stop => close_span_close_open _ _ stop Hstep).
    destruct Hstep as [Hv Ho].
    destruct (open_span (span_loop_after lines n)) as [[start name]|].
    + destruct Ho as [Hs Hn]. split; [exact Hs|]. split; [|split; [exact Hv | exact Hclose]].
      intros start' name' Heq. injection Heq as _ <-. exact Hn.
    + split; [exact Ho|]. split; [|split; [exact Hv | exact Hclose]].
      intros start' name' Heq. discriminate.
  - apply fs_loop_tracks_last_start.
  - unfold function_spans, span_loop_after. rewrite take_ge by lia. reflexivity.
  - unfold check_function_size. rewrite fs_loop_after_all by lia. reflexivity.
  - apply check_function_size_spans.
Qed.

(** ** Leading whitespace and the depth of a line *)

Lemma rstrip_nil (s : str) : rstrip s = [] <-> blanks s.
Proof.
  unfold blanks, all_of. induction s as [|c s IH]; simpl.
  - split; [constructor | reflexivity].
  - destruct (rstrip s) as [|c' t] eqn:Hr.
    + destruct (is_space c) eqn:Hc.
      * split; [intros _; constructor; [exact Hc | apply IH; reflexivity] | reflexivity].
      * split; [discriminate | intros H; inversion H; congruence].
    + split; [discriminate|]. intros H. inversion H as [|? ? _ Hs]; subst.
      apply IH in Hs. discriminate.
Qed.

Lemma lstrip_run (run : str) (c : N) (t : str) :
  blanks run -> is_space c = false -> lstrip (run ++ c :: t) = c :: t.
Proof.
  unfold blanks, all_of. intros Hrun Hc. induction Hrun as [|c' run Hc' _ IH]; simpl.
  - rewrite Hc. reflexivity.
  - rewrite Hc'. exact IH.
Qed.

Lemma not_blank_split (line : str) :
  ~ blanks line ->
  exists run c t, line = run ++ c :: t /\ blanks run /\ is_space c = false.
Proof.
  unfold blanks, all_of. induction line as [|c line IH]; intros Hnb.
  - exfalso. apply Hnb. constructor.
  - destruct (is_space c) eqn:Hc.
    + destruct IH as (run & c' & t & -> & Hrun & Hc').
      { intros H. apply Hnb. constructor; assumption. }
      exists (c :: run), c', t. repeat split; [constructor; assumption | exact Hc'].
    + exists [], c, line. repeat split; [constructor | exact Hc].
Qed.

Lemma nesting_depth_run (run : str) (c : N) (t : str) :
  blanks run -> is_space c = false ->
  nesting_depth (run ++ c :: t) =
  if contains_char TAB run then count_char TAB run else length run / 4.
Proof.
  intros Hrun Hc. unfold nesting_depth. rewrite lstrip_run by assumption.
  rewrite length_app.
  replace (length run + length (c :: t) - length (c :: t)) with (length run) by lia.
  rewrite take_app_length. reflexivity.
Qed.

Lemma contains_char_count c s : contains_char c s = true <-> 0 < count_char c s.
Proof.
  induction s as [|c' s IH]; simpl.
  - split; [discriminate | lia].
  - destruct (N.eqb c' c); simpl; [split; [lia | reflexivity] | exact IH].
Qed.

Lemma spaces_no_tab n : contains_char TAB (repeat SPACE n) = false.
Proof. induction n as [|n IH]; [reflexivity | exact IH]. Qed.

Lemma spaces_blanks n : blanks (repeat SPACE n).
Proof. induction n as [|n IH]; constructor; [reflexivity | exact IH]. Qed.

Lemma nd_body_eq st i line :
  nd_body st i line =
  if is_deep line then
    if decide (i / 10 ∈ reported_regions st) then st
    else NdState (nd_violations st ++ [NestingTooDeep i (nesting_depth line)])
                 ({[i / 10]} ∪ reported_regions st)
  else st.
Proof. unfold nd_body, is_deep. destruct (rstrip line); reflexivity. Qed.

Lemma is_deep_not_blank line : is_deep line = true -> ~ blanks line.
Proof.
  unfold is_deep. intros H Hb. apply rstrip_nil in Hb. rewrite Hb in H. discriminate.
Qed.

Lemma is_deep_run (run : str) (c : N) (t : str) :
  blanks run -> is_space c = false ->
  is_deep (run ++ c :: t) =
  (MAX_NESTING_DEPTH <? if contains_char TAB run then count_char TAB run else length run / 4).
Proof.
  intros Hrun Hc. unfold is_deep. rewrite nesting_depth_run by assumption.
  destruct (rstrip (run ++ c :: t)) eqn:Hr; [|reflexivity].
  apply rstrip_nil in Hr. unfold blanks, all_of in Hr.
  apply Forall_app in Hr as [_ Hr]. inversion Hr; congruence.
Qed.

Lemma nd_inv_init : nd_inv [] (NdState [] ∅).
Proof.
  split; simpl.
  - intros v [].
  - intros r. split; [intros H; set_solver | intros (v & [] & _)].
  - constructor.
  - intros j l H. rewrite lookup_nil in H. discriminate.
Qed.

Lemma nd_inv_step seen st line :
  nd_inv seen st -> nd_inv (seen ++ [line]) (nd_body st (length seen) line).
Proof.
  intros [Hhits Hreg Hnd Hdeep]. rewrite nd_body_eq.
  assert (Hold : forall j (l : str), seen !! j = Some l -> (seen ++ [line]) !! j = Some l).
  { intros j l H. apply lookup_app_l_Some. exact H. }
  assert (Hnew : forall j (l : str), (seen ++ [line]) !! j = Some l ->
                   seen !! j = Some l \/ (j = length seen /\ l = line)).
  { intros j l H. apply lookup_app_Some in H as [H|[Hge H]]; [left; exact H|right].
    destruct (j - length seen) as [|n] eqn:Hn; simpl in H; [|rewrite lookup_nil in H; discriminate].
    injection H as <-. split; [lia | reflexivity]. }
  destruct (is_deep line) eqn:Hline.
  - destruct (decide (length seen / 10 ∈ reported_regions st)) as [Hin|Hnin].
    + split; [| exact Hreg | exact Hnd |].
      * intros v Hv. destruct (Hhits v Hv) as (j & l & -> & Hl & Hd). eauto 6.
      * intros j l Hl Hd. apply Hnew in Hl as [Hl|[-> ->]]; [eauto | exact Hin].
    + split; simpl.
      * intros v Hv. apply in_app_or in Hv as [Hv|[<-|[]]].
        -- destruct (Hhits v Hv) as (j & l & -> & Hl & Hd). eauto 6.
        -- exists (length seen), line. repeat split; [|exact Hline].
           rewrite lookup_app_r by lia. rewrite Nat.sub_diag. reflexivity.
      * intros r. rewrite elem_of_union, elem_of_singleton, Hreg. split.
        -- intros [->|(v & Hv & Hr)].
           ++ eexists. split; [apply in_or_app; right; left; reflexivity | reflexivity].
           ++ exists v. split; [apply in_or_app; left; exact Hv | exact Hr].
        -- intros (v & Hv & Hr). apply in_app_or in Hv as [Hv|[<-|[]]].
           ++ right. eauto.
           ++ left. symmetry. exact Hr.
      * rewrite map_app. simpl. apply NoDup_app. split; [exact Hnd|]. split.
        -- intros r Hr Hr'. apply list_elem_of_In in Hr, Hr'.
           destruct Hr' as [<-|[]]. apply Hnin, Hreg.
           apply in_map_iff in Hr as (v & Hv & Hin). eauto.
        -- apply NoDup_singleton.
      * intros j l Hl Hd. rewrite elem_of_union, elem_of_singleton.
        apply Hnew in Hl as [Hl|[-> ->]]; [right; eauto | left; reflexivity].
  - split; [| exact Hreg | exact Hnd |].
    + intros v Hv. destruct (Hhits v Hv) as (j & l & -> & Hl & Hd). eauto 6.
    + intros j l Hl Hd. apply Hnew in Hl as [Hl|[-> ->]]; [eauto | congruence].
Qed.

Lemma nd_inv_loop lines : forall seen st,
  nd_inv seen st ->
  nd_inv (seen ++ lines) (for_enumerate nd_body (length seen) lines st).
Proof.
  induction lines as [|line rest IH]; intros seen st H; simpl.
  - rewrite app_nil_r. exact H.
  - replace (seen ++ line :: rest) with ((seen ++ [line]) ++ rest)
      by (rewrite <- app_assoc; reflexivity).
    replace (S (length seen)) with (length (seen ++ [line]))
      by (rewrite length_app; simpl; lia).
    apply IH, nd_inv_step, H.
Qed.

Lemma check_nesting_depth_inv lines :
  nd_inv lines (for_enumerate nd_body 0 lines (NdState [] ∅)).
Proof. apply (nd_inv_loop lines [] _ nd_inv_init). Qed.

Lemma nesting_violations_hits lines :
  exists hits : list (nat * nat),
    check_nesting_depth lines = map (fun h => NestingTooDeep (fst h) (snd h)) hits /\
    map (fun h => fst h / 10) hits = map region_of (check_nesting_depth lines).
Proof.
  unfold check_nesting_depth.
  pose proof (inv_hits _ _ (check_nesting_depth_inv lines)) as Hhits.
  induction (nd_violations (for_enumerate nd_body 0 lines (NdState [] ∅))) as [|v vs IH].
  - exists []. split; reflexivity.
  - destruct IH as (hits & Hvs & Hreg).
    { intros v' Hv'. apply Hhits. right. exact Hv'. }
    destruct (Hhits v (or_introl eq_refl)) as (j & l & -> & _).
    exists ((j, nesting_depth l) :: hits). cbn [map fst snd region_of].
    rewrite <- Hvs, Hreg. split; reflexivity.
Qed.

(** C7. The nesting violations of one scan cite pairwise different 10-line
    regions: two violations whose line indices have the same quotient by 10
    are the same entry of the report. *)
Theorem nesting_one_violation_per_region (lines : list str) :
  exists hits : list (nat * nat),
    check_nesting_depth lines = map (fun h => NestingTooDeep (fst h) (snd h)) hits /\
    NoDup (map (fun h => fst h / 10) hits) /\
    (forall k k' h h', hits !! k = Some h -> hits !! k' = Some h' ->
       fst h / 10 = fst h' / 10 -> k = k').
Proof.
  destruct (nesting_violations_hits lines) as (hits & Hvs & Hreg).
  assert (Hnd : NoDup (map (fun h => fst h / 10) hits)).
  { rewrite Hreg. apply (inv_nodup _ _ (check_nesting_depth_inv lines)). }
  exists hits. split; [exact Hvs|]. split; [exact Hnd|].
  intros k k' h h' Hk Hk' Heq.
  apply (NoDup_lookup _ k k' (fst h / 10) Hnd).
  - change (map (fun h0 => fst h0 / 10) hits) with ((fun h0 : nat * nat => fst h0 / 10) <$> hits).
    rewrite list_lookup_fmap, Hk. reflexivity.
  - change (map (fun h0 => fst h0 / 10) hits) with ((fun h0 : nat * nat => fst h0 / 10) <$> hits).
    rewrite list_lookup_fmap, Hk', Heq. reflexivity.
Qed.

Lemma deep_line_reported lines (line : str) :
  In line lines -> is_deep line = true -> check_nesting_depth lines <> [].
Proof.
  intros Hin Hd. apply list_elem_of_In, list_elem_of_lookup in Hin as [j Hj].
  destruct (check_nesting_depth_inv lines) as [_ Hreg _ Hdeep].
  apply (Hdeep j line Hj), Hreg in Hd as (v & Hv & _).
  unfold check_nesting_depth. intros Hnil. rewrite Hnil in Hv. destruct Hv.
Qed.

Lemma no_deep_line_no_violation lines :
  (forall line, In line lines -> is_deep line = false) -> check_nesting_depth lines = [].
Proof.
  intros H. destruct (check_nesting_depth_inv lines) as [Hhits _ _ _].
  unfold check_nesting_depth.
  destruct (nd_violations _) as [|v vs]; [reflexivity|].
  destruct (Hhits v (or_introl eq_refl)) as (j & l & _ & Hl & Hd).
  rewrite H in Hd; [discriminate|].
  apply list_elem_of_In, list_elem_of_lookup. eauto.
Qed.

(** C6, counterexample. The 20 form feeds are whitespace for [lstrip] and none
    is a tab or a space: the loop computes depth 20 // 4 = 5 and reports the
    line, where the claim's count of leading space characters gives depth 0. *)
Lemma depth_counts_any_whitespace :
  rstrip form_feed_line <> [] /\
  nesting_depth form_feed_line = 5 /\
  claimed_nesting_depth form_feed_line = 0 /\
  check_nesting_depth [form_feed_line] = [NestingTooDeep 0 5].
Proof. vm_compute. repeat split. discriminate. Qed.

(** C6, as amended. For every line that is not blank, the depth is the number
    of tab characters in the leading-whitespace run when that run contains a
    tab, and otherwise the length of the run (whitespace characters of any
    kind) divided by 4. A file with a line indented by a run holding 5 tabs
    yields at least one violation; a file whose lines are blank or indented by
    at most 16 spaces yields none. *)
Theorem nesting_depth_of_leading_run :
  (forall line : str, rstrip line <> [] ->
     exists run c t, line = run ++ c :: t /\ blanks run /\ is_space c = false /\
       nesting_depth line =
       if contains_char TAB run then count_char TAB run else length run / 4) /\
  (forall (lines : list str) (run : str) (c : N) (t : str),
     In (run ++ c :: t) lines -> blanks run -> is_space c = false ->
     5 <= count_char TAB run ->
     check_nesting_depth lines <> []) /\
  (forall lines : list str,
     (forall line, In line lines ->
        blanks line \/
        exists n c t, n <= 16 /\ is_space c = false /\ line = repeat SPACE n ++ c :: t) ->
     check_nesting_depth lines = []).
Proof.
  split; [|split].
  - intros line Hnb.
    destruct (not_blank_split line) as (run & c & t & -> & Hrun & Hc).
    { intros Hb. apply Hnb, rstrip_nil, Hb. }
    exists run, c, t. repeat split; try assumption. apply nesting_depth_run; assumption.
  - intros lines run c t Hin Hrun Hc Htabs.
    apply (deep_line_reported lines _ Hin). rewrite is_deep_run by assumption.
    assert (Hcont : contains_char TAB run = true) by (apply contains_char_count; lia).
    rewrite Hcont. apply Nat.ltb_lt. unfold MAX_NESTING_DEPTH. lia.
  - intros lines H. apply no_deep_line_no_violation. intros line Hin.
    destruct (H line Hin) as [Hb | (n & c & t & Hn & Hc & ->)].
    + destruct (is_deep line) eqn:Hd; [|reflexivity].
      exfalso. exact (is_deep_not_blank line Hd Hb).
    + rewrite is_deep_run by (apply spaces_blanks || exact Hc).
      rewrite spaces_no_tab, repeat_length. apply Nat.ltb_ge.
      unfold MAX_NESTING_DEPTH. apply Nat.Div0.div_le_upper_bound. lia.
Qed.

(** The scenarios of C6 on concrete files: a line under 5 tabs is reported, and
    a file indented by 16 spaces at most is not. *)
Lemma nesting_depth_scenarios :
  check_nesting_depth [s2l "if a:" ++ [LF]; repeat TAB 5 ++ s2l "x = 1" ++ [LF]] <> [] /\
  check_nesting_depth
    [s2l "a" ++ [LF]; [LF]; repeat SPACE 16 ++ s2l "b" ++ [LF]] = [].
Proof.
  split.
  - apply (proj1 (proj2 nesting_depth_of_leading_run) _ (repeat TAB 5) 120%N (s2l " = 1" ++ [LF])).
    + right. left. reflexivity.
    + repeat constructor.
    + reflexivity.
    + simpl. lia.
  - apply (proj2 (proj2 nesting_depth_of_leading_run)).
    intros line [<-|[<-|[<-|[]]]].
    + right. exists 0, 97%N, [LF]. repeat split. lia.
    + left. repeat constructor.
    + right. exists 16, 98%N, [LF]. repeat split. lia.
Defined.

(** ** Runs of commented-out code *)

Lemma flush_run_pending st i pending :
  run_length st = pending ->
  (0 < pending -> run_start st = Some (i - pending)) ->
  flush_run st =
  Ok (cb_violations st
      ++ map run_violation
           (List.filter long_run (if 0 <? pending then [(i - pending, pending)] else []))).
Proof.
  intros Hlen Hstart. unfold flush_run. rewrite Hlen.
  destruct (MAX_COMMENTED_BLOCK <=? pending) eqn:Hlong.
  - apply Nat.leb_le in Hlong. unfold MAX_COMMENTED_BLOCK in Hlong.
    rewrite Hstart by lia. destruct pending as [|p]; [lia|].
    cbn [Nat.ltb Nat.leb List.filter]. unfold long_run. cbn [snd].
    apply Nat.leb_le in Hlong. unfold MAX_COMMENTED_BLOCK. rewrite Hlong. reflexivity.
  - destruct (0 <? pending); cbn [List.filter]; unfold long_run; cbn [snd];
      rewrite ?Hlong; simpl; rewrite app_nil_r; reflexivity.
Qed.

Lemma cb_loop_runs lines : forall i st pending,
  run_length st = pending ->
  (pending = 0 -> run_start st = None) ->
  (0 < pending -> run_start st = Some (i - pending)) ->
  (let* st' := for_enumerate_try cb_body i lines st in flush_run st') =
  Ok (cb_violations st ++ map run_violation (List.filter long_run (runs_from i lines pending))).
Proof.
  induction lines as [|line rest IH]; intros i st pending Hlen Hnone Hsome.
  - simpl. apply flush_run_pending; assumption.
  - cbn [for_enumerate_try runs_from]. unfold cb_body.
    destruct (is_code_comment line) eqn:Hline.
    + cbn [bind]. rewrite (IH (S i) _ (S pending)); cbn [run_length run_start cb_violations].
      * reflexivity.
      * lia.
      * intros H. lia.
      * intros _. destruct pending as [|p].
        -- rewrite Hnone by reflexivity. f_equal. lia.
        -- rewrite Hsome by lia. f_equal.
    + rewrite (flush_run_pending st i pending Hlen Hsome). cbn [bind].
      rewrite (IH (S i) _ 0); cbn [run_length run_start cb_violations]; try reflexivity;
        try (intros H; lia).
      rewrite List.filter_app, map_app, app_assoc. reflexivity.
Qed.

Lemma check_commented_blocks_runs lines :
  check_commented_blocks lines =
  Ok (map run_violation (List.filter long_run (runs_from 0 lines 0))).
Proof.
  unfold check_commented_blocks.
  apply (cb_loop_runs lines 0 (CbState [] None 0) 0); [reflexivity | reflexivity | lia].
Qed.

Lemma code_comment_at_lt lines j : code_comment_at lines j = true -> j < length lines.
Proof.
  unfold code_comment_at. destruct (lines !! j) as [l|] eqn:Hl; [|discriminate].
  intros _. apply lookup_lt_Some in Hl. exact Hl.
Qed.

Lemma code_comment_at_app_l (seen rest : list str) j :
  j < length seen -> code_comment_at (seen ++ rest) j = code_comment_at seen j.
Proof. intros H. unfold code_comment_at. rewrite lookup_app_l by exact H. reflexivity. Qed.

Lemma code_comment_at_here (seen rest : list str) (line : str) :
  code_comment_at (seen ++ line :: rest) (length seen) = is_code_comment line.
Proof.
  unfold code_comment_at. rewrite lookup_app_r by lia. rewrite Nat.sub_diag. reflexivity.
Qed.

Lemma pending_run_is_maximal seen rest pending :
  pending_run seen pending -> 0 < pending ->
  code_comment_at (seen ++ rest) (length seen) = false ->
  maximal_run (seen ++ rest) (length seen - pending) pending.
Proof.
  intros (Hle & Hall & Hbefore) Hpos Hafter. split; [exact Hpos|]. split; [|split].
  - intros j Hj. rewrite code_comment_at_app_l by lia. apply Hall. lia.
  - destruct (decide (pending = length seen)) as [->|Hne]; [left; lia | right].
    destruct Hbefore as [->|Hbefore]; [contradiction|].
    rewrite code_comment_at_app_l by lia. exact Hbefore.
  - replace (length seen - pending + pending) with (length seen) by lia. exact Hafter.
Qed.

Lemma maximal_run_is_pending seen rest pending s n :
  pending_run seen pending ->
  code_comment_at (seen ++ rest) (length seen) = false ->
  maximal_run (seen ++ rest) s n -> length seen - pending <= s -> s < length seen ->
  0 < pending /\ s = length seen - pending /\ n = pending.
Proof.
  intros (Hle & Hall & Hbefore) Hafter (Hpos & Hrun & Hleft & Hright) Hs Hlt.
  assert (Hinside : forall j, length seen - pending <= j < length seen ->
                      code_comment_at (seen ++ rest) j = true).
  { intros j Hj. rewrite code_comment_at_app_l by lia. apply Hall. exact Hj. }
  assert (Hstart : s = length seen - pending).
  { destruct (decide (s = length seen - pending)) as [|Hne]; [assumption|exfalso].
    destruct Hleft as [->|Hleft]; [lia|].
    rewrite Hinside in Hleft by lia. discriminate. }
  assert (Hend : s + n <= length seen).
  { destruct (decide (s + n <= length seen)) as [|Hgt]; [assumption|exfalso].
    rewrite Hrun in Hafter by lia. discriminate. }
  assert (Hstop : s + n = length seen).
  { destruct (decide (s + n = length seen)) as [|Hne]; [assumption|exfalso].
    rewrite Hinside in Hright by lia. discriminate. }
  lia.
Qed.

Lemma pending_run_extend seen line pending :
  pending_run seen pending -> is_code_comment line = true ->
  pending_run (seen ++ [line]) (S pending).
Proof.
  intros (Hle & Hall & Hbefore) Hline. unfold pending_run. rewrite length_app. simpl.
  split; [lia|]. split.
  - intros j Hj. destruct (decide (j = length seen)) as [->|Hne].
    + rewrite code_comment_at_here. exact Hline.
    + rewrite code_comment_at_app_l by lia. apply Hall. lia.
  - destruct (decide (pending = length seen)) as [->|Hne]; [left; lia | right].
    destruct Hbefore as [->|Hbefore]; [contradiction|].
    rewrite code_comment_at_app_l by lia.
    replace (length seen + 1 - S pending - 1) with (length seen - pending - 1) by lia.
    exact Hbefore.
Qed.

Lemma pending_run_reset seen line :
  is_code_comment line = false -> pending_run (seen ++ [line]) 0.
Proof.
  intros Hline. unfold pending_run. rewrite length_app. simpl. split; [lia|]. split.
  - intros j Hj. lia.
  - right. replace (length seen + 1 - 0 - 1) with (length seen) by lia.
    rewrite code_comment_at_here. exact Hline.
Qed.

Lemma runs_from_spec lines : forall seen pending s n,
  pending_run seen pending ->
  In (s, n) (runs_from (length seen) lines pending) <->
  maximal_run (seen ++ lines) s n /\ length seen - pending <= s.
Proof.
  induction lines as [|line rest IH]; intros seen pending s n Hp.
  - assert (Hafter : code_comment_at (seen ++ []) (length seen) = false).
    { destruct (code_comment_at (seen ++ []) (length seen)) eqn:H; [|reflexivity].
      apply code_comment_at_lt in H. rewrite app_nil_r in H. lia. }
    simpl. split.
    + destruct (Nat.ltb_spec 0 pending) as [Hpos|]; [|intros []].
      intros [[= <- <-]|[]]. split; [|lia].
      apply pending_run_is_maximal; assumption.
    + intros [Hmax Hs].
      assert (Hlt : s < length seen).
      { destruct Hmax as (Hpos & Hrun & _). specialize (Hrun s ltac:(lia)).
        apply code_comment_at_lt in Hrun. rewrite app_nil_r in Hrun. exact Hrun. }
      destruct (maximal_run_is_pending seen [] pending s n Hp Hafter Hmax Hs Hlt)
        as (Hpos & -> & ->).
      apply Nat.ltb_lt in Hpos. rewrite Hpos. left. reflexivity.
  - assert (Hhere := code_comment_at_here seen rest line).
    replace (seen ++ line :: rest) with ((seen ++ [line]) ++ rest) in *
      by (rewrite <- app_assoc; reflexivity).
    assert (Hlen : length (seen ++ [line]) = S (length seen))
      by (rewrite length_app; simpl; lia).
    cbn [runs_from]. destruct (is_code_comment line) eqn:Hline.
    + rewrite <- Hlen, (IH (seen ++ [line]) (S pending) s n (pending_run_extend _ _ _ Hp Hline)).
      rewrite Hlen. simpl. reflexivity.
    + rewrite in_app_iff, <- Hlen,
        (IH (seen ++ [line]) 0 s n (pending_run_reset _ _ Hline)), Hlen.
      rewrite <- app_assoc in Hhere |- *. simpl in Hhere |- *. split.
      * intros [Hfirst | [Hmax Hs]]; [|split; [exact Hmax | lia]].
        destruct (Nat.ltb_spec 0 pending) as [Hpos|]; [|destruct Hfirst].
        destruct Hfirst as [[= <- <-]|[]]. split; [|lia].
        apply (pending_run_is_maximal seen (line :: rest)); assumption.
      * intros [Hmax Hs].
        destruct (decide (S (length seen) <= s)) as [Hge|Hlt]; [right; split; [exact Hmax | lia]|].
        left. assert (Hne : s <> length seen).
        { intros ->. destruct Hmax as (Hpos & Hrun & _).
          rewrite Hrun in Hhere by lia. discriminate. }
        destruct (maximal_run_is_pending seen (line :: rest) pending s n Hp Hhere Hmax Hs
                    ltac:(lia)) as (Hpos & -> & ->).
        apply Nat.ltb_lt in Hpos. rewrite Hpos. left. reflexivity.
Qed.

Lemma runs_from_sorted lines : forall i pending,
  StronglySorted lt (map fst (runs_from i lines pending)) /\
  Forall (fun r => i - pending <= fst r) (runs_from i lines pending).
Proof.
  induction lines as [|line rest IH]; intros i pending; cbn [runs_from].
  - destruct (0 <? pending); simpl; split; repeat constructor.
  - destruct (is_code_comment line).
    + destruct (IH (S i) (S pending)) as [Hs Hf]. split; [exact Hs|].
      simpl in Hf. exact Hf.
    + destruct (IH (S i) 0) as [Hs Hf].
      assert (Hf' : Forall (fun r => i - pending <= fst r) (runs_from (S i) rest 0)).
      { eapply List.Forall_impl; [|exact Hf]. simpl. intros r Hr. lia. }
      destruct (Nat.ltb_spec 0 pending) as [Hpos|]; simpl; [|split; assumption].
      split.
      * constructor; [exact Hs|]. apply List.Forall_map.
        eapply List.Forall_impl; [|exact Hf]. simpl. intros r Hr. lia.
      * constructor; [simpl; lia | exact Hf'].
Qed.

Lemma filter_sorted (f : nat * nat -> bool) (l : list (nat * nat)) :
  StronglySorted lt (map fst l) -> StronglySorted lt (map fst (List.filter f l)).
Proof.
  induction l as [|r l IH]; simpl; intros H; [constructor|].
  inversion H as [|? ? Hs Hall]; subst. destruct (f r); simpl; [|auto].
  constructor; [auto|]. rewrite List.Forall_forall in *.
  intros x Hx. apply in_map_iff in Hx as (r' & <- & Hr').
  apply filter_In in Hr' as [Hr' _]. apply Hall, in_map, Hr'.
Qed.

Lemma lang_one_of v vs i w : lang (Alts (Lit v) (map Lit vs)) i w <-> In w (v :: vs).
Proof.
  revert v. induction vs as [|v' vs IH]; intros v; cbn [map Alts lang].
  - rewrite lang_Lit. simpl. split; [auto | intros [<-|[]]; reflexivity].
  - rewrite lang_Lit, IH. simpl. split; intros [H|H]; auto.
Qed.

Lemma strip_head (s : str) (c : N) (t : str) : strip s = c :: t -> is_space c = false.
Proof.
  unfold strip. induction s as [|c' s IH]; simpl; [discriminate|].
  destruct (is_space c') eqn:Hc'; [exact IH|].
  simpl. destruct (rstrip s); [rewrite Hc'|]; intros [= <- _]; exact Hc'.
Qed.

Lemma comment_marker_spec (line : str) :
  re_match comment_pattern (strip line) = true <->
  exists marker tail, strip line = marker ++ tail /\ In marker comment_markers.
Proof.
  rewrite re_match_spec. unfold comment_pattern. cbn [Seqs lang]. split.
  - intros (w & u & Hw & w1 & w2 & -> & (_ & ->) & ws & w3 & -> & Hws & m & w4 & -> & Hm & ->).
    apply (lang_one_of (s2l "//") (List.tl comment_markers)) in Hm.
    destruct ws as [|c ws].
    + exists m, u. split; [rewrite Hw, app_nil_r; reflexivity | exact Hm].
    + simpl in Hw. apply strip_head in Hw. inversion Hws; congruence.
  - intros (m & tail & Hs & Hm). exists m, tail. split; [exact Hs|].
    exists [], m. repeat split. exists [], m. repeat split; [constructor|].
    exists m, []. rewrite app_nil_r. repeat split.
    apply (lang_one_of (s2l "//") (List.tl comment_markers)). exact Hm.
Qed.

Lemma code_signal_spec (s : str) :
  re_search code_keywords s = true <->
  exists before signal after, s = before ++ signal ++ after /\ In signal code_signals.
Proof.
  rewrite re_search_spec. unfold code_keywords. split.
  - intros (pre & w & u & Hs & Hw).
    apply (lang_one_of (s2l "function") (List.tl code_signals)) in Hw. eauto 6.
  - intros (pre & w & u & Hs & Hw). exists pre, w, u. split; [exact Hs|].
    apply (lang_one_of (s2l "function") (List.tl code_signals)). exact Hw.
Qed.

Lemma is_code_comment_spec (line : str) :
  is_code_comment line = true <->
  (exists marker tail, strip line = marker ++ tail /\ In marker comment_markers) /\
  (exists before signal after,
     strip line = before ++ signal ++ after /\ In signal code_signals).
Proof.
  unfold is_code_comment.
  rewrite andb_true_iff, comment_marker_spec, code_signal_spec. reflexivity.
Qed.

Lemma runs_from_all_then_stop (run : list str) (stop : str) :
  Forall (fun l => is_code_comment l = true) run -> is_code_comment stop = false ->
  forall i pending,
    runs_from i (run ++ [stop]) pending =
    if 0 <? pending + length run
    then [(i + length run - (pending + length run), pending + length run)] else [].
Proof.
  intros Hrun Hstop. induction Hrun as [|l run Hl _ IH]; intros i pending; simpl.
  - rewrite Hstop, !Nat.add_0_r. destruct (0 <? pending); reflexivity.
  - rewrite Hl, IH. replace (S pending + length run) with (pending + S (length run)) by lia.
    replace (S i + length run) with (i + S (length run)) by lia. reflexivity.
Qed.

(** C4, counterexample. The line [# def ] followed by its newline begins with
    the comment marker [#] and holds the signal [def ] with its blank, so it
    passes the test as the specification words it; the code trims the line at
    both ends before it looks for a signal, the blank is gone, and the line is
    not counted: twelve such lines in a row give no violation. *)
Lemma trailing_blank_signal_is_trimmed :
  (exists tail, def_comment_line = s2l "#" ++ tail /\ In (s2l "#") comment_markers) /\
  (exists before after,
     def_comment_line = before ++ s2l "def " ++ after /\ In (s2l "def ") code_signals) /\
  claimed_code_comment def_comment_line = true /\
  is_code_comment def_comment_line = false /\
  length twelve_def_comments = 12 /\
  Forall (fun l => l = def_comment_line) twelve_def_comments /\
  check_commented_blocks twelve_def_comments = Ok [].
Proof.
  split; [|split; [|split; [|split; [|split; [|split]]]]].
  - exists (s2l " def " ++ [LF]). split; [reflexivity|]. simpl. tauto.
  - exists (s2l "# "), [LF]. split; [reflexivity|]. simpl. tauto.
  - vm_compute. reflexivity.
  - vm_compute. reflexivity.
  - reflexivity.
  - apply List.Forall_forall. intros l Hl. apply repeat_spec in Hl. exact Hl.
  - vm_compute. reflexivity.
Qed.

(** C4, as amended. A line belongs to a run when, trimmed at both ends, it
    begins with a comment marker and contains one of the code signals (a
    signal that reaches into the trailing whitespace of the line is therefore
    not seen). The violations the detector returns
    are, in increasing order of start line and each once, the maximal runs of
    such consecutive lines (a run broken by the first line that fails either
    test, or by the end of the file) whose length is at least
    [MAX_COMMENTED_BLOCK]: no shorter run, and nothing else, is reported, and
    the detector never raises. Twelve such lines followed by a line that is
    not one yield the single violation for lines 1 to 12. *)
Theorem stale_comment_block_iff_long_run :
  (forall line : str,
     is_code_comment line = true <->
     (exists marker tail, strip line = marker ++ tail /\ In marker comment_markers) /\
     (exists before signal after,
        strip line = before ++ signal ++ after /\ In signal code_signals)) /\
  (forall lines : list str, exists runs : list (nat * nat),
     check_commented_blocks lines =
       Ok (map (fun r => StaleCommentBlock (fst r) (snd r)) runs) /\
     StronglySorted lt (map fst runs) /\
     (forall s n, In (s, n) runs <->
        maximal_run lines s n /\ MAX_COMMENTED_BLOCK <= n)) /\
  (forall (run : list str) (prose : str),
     length run = 12 ->
     Forall (fun l => is_code_comment l = true) run ->
     is_code_comment prose = false ->
     check_commented_blocks (run ++ [prose]) = Ok [StaleCommentBlock 0 12] /\
     maximal_run (run ++ [prose]) 0 12).
Proof.
  split; [exact is_code_comment_spec|]. split.
  - intros lines. exists (List.filter long_run (runs_from 0 lines 0)).
    split; [apply check_commented_blocks_runs|]. split.
    + apply filter_sorted, runs_from_sorted.
    + intros s n. rewrite filter_In.
      rewrite (runs_from_spec lines [] 0 s n).
      * change ([] ++ lines) with lines. unfold long_run. cbn [snd length].
        rewrite Nat.leb_le. split.
        -- intros [[H _] Hn]. auto.
        -- intros [H Hn]. split; [split; [exact H | lia] | exact Hn].
      * split; [simpl; lia|]. split; [simpl; intros j Hj; lia | left; reflexivity].
  - intros run prose Hlen Hrun Hprose.
    assert (Hruns : runs_from 0 (run ++ [prose]) 0 = [(0, 12)]).
    { rewrite (runs_from_all_then_stop run prose Hrun Hprose), Hlen. reflexivity. }
    split.
    + rewrite check_commented_blocks_runs, Hruns. reflexivity.
    + apply (runs_from_spec (run ++ [prose]) [] 0 0 12).
      * split; [simpl; lia|]. split; [simpl; intros j Hj; lia | left; reflexivity].
      * cbn [length]. rewrite Hruns. left. reflexivity.
Qed.

(** The scenario of C4 on a concrete file. *)
Lemma stale_comment_block_twelve_lines :
  check_commented_blocks twelve_commented_lines = Ok [StaleCommentBlock 0 12] /\
  render (StaleCommentBlock 0 12) = s2l "  Lines 1-12: 12 lines of commented-out code".
Proof.
  split; [|reflexivity].
  apply (proj2 (proj2 stale_comment_block_iff_long_run)
           (repeat (s2l "# import foo" ++ [LF]) 12) (s2l "# A plain remark." ++ [LF])).
  - apply repeat_length.
  - apply List.Forall_forall. intros l Hl. apply repeat_spec in Hl. subst l. reflexivity.
  - reflexivity.
Defined.

(** ** File size *)

(** C5. [check_file_size] returns one violation, carrying the number of lines,
    exactly when that number is strictly above [MAX_FILE_LINES]; a file of
    [MAX_FILE_LINES] lines yields none, a file of 501 lines yields the one
    violation reporting 501. *)
Theorem file_too_long_iff_exceeds :
  (forall (lines : list str) (v : violation),
     In v (check_file_size lines) <->
     MAX_FILE_LINES < length lines /\ v = FileTooLong (length lines)) /\
  (forall lines : list str, length (check_file_size lines) <= 1) /\
  (forall lines : list str, length lines = MAX_FILE_LINES -> check_file_size lines = []) /\
  (forall lines : list str,
     length lines = 501 ->
     check_file_size lines = [FileTooLong 501] /\
     map render (check_file_size lines) = [s2l "  File is 501 lines (max 500)"]).
Proof.
  unfold check_file_size. split; [|split; [|split]].
  - intros lines v. destruct (Nat.ltb_spec MAX_FILE_LINES (length lines)) as [Hlt|Hle].
    + split.
      * intros [<-|[]]. split; [exact Hlt | reflexivity].
      * intros [_ ->]. left. reflexivity.
    + split; [intros [] | intros [Hlt _]; lia].
  - intros lines. destruct (MAX_FILE_LINES <? length lines); simpl; lia.
  - intros lines H. rewrite H, Nat.ltb_irrefl. reflexivity.
  - intros lines H. rewrite H. split; reflexivity.
Qed.

(** The scenarios of C5 on concrete files of 500 and of 501 empty lines. *)
Lemma file_too_long_boundary :
  check_file_size (repeat [LF] 500) = [] /\
  map render (check_file_size (repeat [LF] 501)) = [s2l "  File is 501 lines (max 500)"].
Proof.
  split.
  - apply (proj1 (proj2 (proj2 file_too_long_iff_exceeds))). apply repeat_length.
  - apply (proj2 (proj2 (proj2 file_too_long_iff_exceeds))). apply repeat_length.
Defined.

(** ** The report *)

Lemma check_commented_blocks_returns lines :
  exists stale, check_commented_blocks lines = Ok stale.
Proof. eexists. apply check_commented_blocks_runs. Qed.

Lemma run_detectors_cases (d1 d2 d3 d4 : detector) (lines : list str) :
  run_detectors d1 d2 d3 d4 lines =
  match d1 lines with
  | Raise e => Raise e
  | Ok v1 =>
      match d2 lines with
      | Raise e => Raise e
      | Ok v2 =>
          match d3 lines with
          | Raise e => Raise e
          | Ok v3 =>
              match d4 lines with
              | Raise e => Raise e
              | Ok v4 => Ok (v1 ++ v2 ++ v3 ++ v4)
              end
          end
      end
  end.
Proof.
  unfold run_detectors.
  destruct (d1 lines) as [v1|e]; [|reflexivity].
  destruct (d2 lines) as [v2|e]; [|reflexivity].
  destruct (d3 lines) as [v3|e]; [|reflexivity].
  destruct (d4 lines) as [v4|e]; [|reflexivity].
  simpl. rewrite <- !app_assoc. reflexivity.
Qed.

Lemma collect_violations_eq lines stale :
  check_commented_blocks lines = Ok stale ->
  collect_violations lines =
  Ok (check_function_size lines ++ check_nesting_depth lines
      ++ check_file_size lines ++ stale).
Proof.
  intros H. unfold collect_violations. rewrite run_detectors_cases.
  unfold returns. rewrite H. reflexivity.
Qed.

(** C9. The violations [main] reports are the four detectors' results appended
    in the order function size, nesting, file size, comment runs, every entry
    kept; [main] writes them after one header line and exits with status 2
    exactly when that list is not empty, and writes nothing and exits with 0
    when it is. *)
Theorem report_concatenates_detectors (basename : str) (lines : list str) :
  exists stale violations : list violation,
    check_commented_blocks lines = Ok stale /\
    violations = check_function_size lines ++ check_nesting_depth lines
                 ++ check_file_size lines ++ stale /\
    collect_violations lines = Ok violations /\
    length violations =
      length (check_function_size lines) + length (check_nesting_depth lines)
      + length (check_file_size lines) + length stale /\
    (has_violations violations = true <-> violations <> []) /\
    main_scan basename lines =
      Ok (if has_violations violations
          then Outcome ((s2l "Code quality issues in " ++ basename ++ s2l ":")
                          :: map render violations) 2
          else Outcome [] 0).
Proof.
  destruct (check_commented_blocks_returns lines) as [stale Hstale].
  exists stale. eexists. split; [exact Hstale|]. split; [reflexivity|].
  assert (Hcollect := collect_violations_eq lines stale Hstale).
  split; [exact Hcollect|]. split; [|split].
  - rewrite !length_app. lia.
  - destruct (check_function_size lines ++ _); simpl; split; congruence.
  - unfold main_scan. rewrite Hcollect. reflexivity.
Qed.

(** C10. On a file of no lines every detector returns the empty list, the
    report is empty, and [main] exits with status 0 having written nothing. *)
Theorem empty_file_has_no_violations :
  check_function_size [] = [] /\
  check_nesting_depth [] = [] /\
  check_file_size [] = [] /\
  check_commented_blocks [] = Ok [] /\
  collect_violations [] = Ok [] /\
  has_violations [] = false /\
  (forall basename : str, main_scan basename [] = Ok (Outcome [] 0)).
Proof. repeat split. Qed.


(** ** The properties on small files *)

(** C8 on a file with two functions: one span per [def] line, the first ending
    where the second starts, the second at the end of the file. *)
Lemma function_spans_two_functions :
  function_spans two_function_file = [Span (s2l "f") 1 3; Span (s2l "g") 3 5] /\
  length (function_spans two_function_file) =
    length (List.filter is_func_start two_function_file).
Proof.
  split; [vm_compute; reflexivity|].
  apply (proj1 (function_spans_cover_starts two_function_file)).
Defined.


(** C7 on a file whose twelve lines are all too deep: one violation for lines
    1 to 10, one for lines 11 and 12. *)
Lemma nesting_twelve_deep_lines :
  check_nesting_depth deep_commented_file = [NestingTooDeep 0 5; NestingTooDeep 10 5] /\
  exists hits : list (nat * nat),
    check_nesting_depth deep_commented_file
      = map (fun h => NestingTooDeep (fst h) (snd h)) hits /\
    NoDup (map (fun h => fst h / 10) hits).
Proof.
  split; [vm_compute; reflexivity|].
  destruct (nesting_one_violation_per_region deep_commented_file) as (hits & H1 & H2 & _).
  exists hits. split; assumption.
Defined.

(** C9 on the same file: its first line is cited by a nesting violation and
    lies in the reported comment run, and the report keeps both entries. *)
Lemma report_keeps_both_violations :
  collect_violations deep_commented_file =
    Ok [NestingTooDeep 0 5; NestingTooDeep 10 5; StaleCommentBlock 0 12] /\
  main_scan (s2l "a.py") deep_commented_file =
    Ok (Outcome [ s2l "Code quality issues in a.py:";
                  s2l "  Line 1: nesting depth 5 (max 4)";
                  s2l "  Line 11: nesting depth 5 (max 4)";
                  s2l "  Lines 1-12: 12 lines of commented-out code" ] 2).
Proof.
  destruct (report_concatenates_detectors (s2l "a.py") deep_commented_file)
    as (stale & violations & _ & _ & Hcollect & _ & _ & Hmain).
  assert (Hvalue : collect_violations deep_commented_file =
                   Ok [NestingTooDeep 0 5; NestingTooDeep 10 5; StaleCommentBlock 0 12])
    by (vm_compute; reflexivity).
  split; [exact Hvalue|].
  rewrite Hvalue in Hcollect. injection Hcollect as <-.
  rewrite Hmain. vm_compute. reflexivity.
Defined.

(** ** Skipped paths *)

Lemma str_startswith_spec pattern : forall s,
  str_startswith pattern s = true <-> exists after, s = pattern ++ after.
Proof.
  induction pattern as [|c pattern IH]; intros s; simpl.
  - split; [eauto | reflexivity].
  - destruct s as [|d s].
    + split; [discriminate | intros (after & H); discriminate].
    + rewrite andb_true_iff, N.eqb_eq, IH. split.
      * intros (-> & after & ->). eauto.
      * intros (after & [= -> ->]). eauto.
Qed.

Lemma str_in_spec pattern : forall s, str_in pattern s = true <-> occurs pattern s.
Proof.
  unfold occurs. induction s as [|d s IH]; simpl; rewrite orb_true_iff, str_startswith_spec.
  - split.
    + intros [(after & H) | H]; [|discriminate]. exists [], after. exact H.
    + intros (before & after & H). left. destruct before as [|? ?]; [|discriminate].
      exists after. exact H.
  - rewrite IH. split.
    + intros [(after & H) | (before & after & ->)].
      * exists [], after. exact H.
      * exists (d :: before), after. reflexivity.
    + intros (before & after & H). destruct before as [|d' before].
      * left. exists after. exact H.
      * right. injection H as -> ->. eauto.
Qed.

Lemma occurs_trans a b s : occurs a b -> occurs b s -> occurs a s.
Proof.
  intros (b1 & b2 & ->) (s1 & s2 & ->). exists (s1 ++ b1), (b2 ++ s2).
  rewrite <- !app_assoc. reflexivity.
Qed.

Lemma any_pattern_in_spec patterns lower :
  any_pattern_in patterns lower = true <->
  exists pattern, In pattern patterns /\ occurs pattern lower.
Proof.
  induction patterns as [|p rest IH]; simpl.
  - split; [discriminate | intros (? & [] & _)].
  - destruct (str_in p lower) eqn:Hp.
    + apply str_in_spec in Hp. split; [eauto | reflexivity].
    + rewrite IH. split.
      * intros (q & Hq & Ho). eauto.
      * intros (q & [<-|Hq] & Ho); [|eauto].
        apply str_in_spec in Ho. congruence.
Qed.

(** X1. A path is skipped exactly when its lower-cased text contains one of
    nine patterns: the seven of [SKIP_PATTERNS], [test] or [spec]. The four
    longer entries of [SKIP_TEST_PATTERNS] never decide anything, each
    containing [test] or [spec]. *)
Theorem should_skip_iff_pattern_occurs (str_lower : str -> str) (file_path : str) :
  should_skip str_lower file_path = true <->
  exists pattern,
    In pattern [ s2l "node_modules"; s2l "vendor"; s2l "dist/"; s2l "build/";
                 s2l ".min."; s2l "__pycache__"; s2l ".pyc"; s2l "test"; s2l "spec" ] /\
    occurs pattern (str_lower file_path).
Proof.
  unfold should_skip.
  destruct (any_pattern_in SKIP_PATTERNS (str_lower file_path)) eqn:H1.
  - apply any_pattern_in_spec in H1 as (p & Hp & Ho). split; [intros _|reflexivity].
    exists p. split; [|exact Ho].
    apply (in_or_app SKIP_PATTERNS [s2l "test"; s2l "spec"]). left. exact Hp.
  - destruct (any_pattern_in SKIP_TEST_PATTERNS (str_lower file_path)) eqn:H2.
    + apply any_pattern_in_spec in H2 as (p & Hp & Ho). split; [intros _|reflexivity].
      assert (Hshort : occurs (s2l "test") p \/ occurs (s2l "spec") p).
      { destruct Hp as [<-|[<-|[<-|[<-|[<-|[<-|[]]]]]]];
          [left|right|left|right|left|right]; apply str_in_spec; reflexivity. }
      destruct Hshort as [Hs|Hs].
      * exists (s2l "test"). split; [do 7 right; left; reflexivity|].
        exact (occurs_trans _ _ _ Hs Ho).
      * exists (s2l "spec"). split; [do 8 right; left; reflexivity|].
        exact (occurs_trans _ _ _ Hs Ho).
    + split; [discriminate|]. intros (p & Hp & Ho). exfalso.
      apply (in_app_or SKIP_PATTERNS [s2l "test"; s2l "spec"]) in Hp as [Hp|Hp].
      * assert (Hin : any_pattern_in SKIP_PATTERNS (str_lower file_path) = true)
          by (apply any_pattern_in_spec; eauto).
        congruence.
      * assert (Hin : any_pattern_in SKIP_TEST_PATTERNS (str_lower file_path) = true).
        { apply any_pattern_in_spec. exists p. split; [|exact Ho].
          destruct Hp as [<-|[<-|[]]]; [left|right; left]; reflexivity. }
        congruence.
Qed.

(** X1 on two paths: [src/Inspector.py] is skipped, its lower-cased text
    containing [spec]; [src/app.py] is not. *)
Lemma should_skip_inspector :
  should_skip ascii_lower (s2l "src/Inspector.py") = true /\
  should_skip ascii_lower (s2l "src/app.py") = false.
Proof.
  split; [|vm_compute; reflexivity].
  apply (proj2 (should_skip_iff_pattern_occurs ascii_lower (s2l "src/Inspector.py"))).
  exists (s2l "spec"). split; [do 8 right; left; reflexivity|].
  exists (s2l "src/in"), (s2l "tor.py"). vm_compute. reflexivity.
Defined.

(** ** The front of main *)

Lemma main_scan_eq name lines :
  exists violations,
    collect_violations lines = Ok violations /\
    main_scan name lines = Ok (report name violations).
Proof.
  destruct (check_commented_blocks_returns lines) as [stale Hstale].
  eexists. split; [apply (collect_violations_eq lines stale Hstale)|].
  unfold main_scan. rewrite (collect_violations_eq lines stale Hstale). reflexivity.
Qed.

Lemma report_exit_code name violations :
  (violations = [] /\ report name violations = Outcome [] 0) \/
  (violations <> [] /\
   report name violations = Outcome (header name :: map render violations) 2).
Proof.
  unfold report, header. destruct violations as [|v vs]; simpl.
  - left. split; reflexivity.
  - right. split; [discriminate | reflexivity].
Qed.

Lemma is_edit_or_write_spec v :
  is_edit_or_write v = true <-> v = JString (s2l "Edit") \/ v = JString (s2l "Write").
Proof.
  destruct v as [|b|n|s|items|entries]; simpl;
    try (split; [discriminate | intros [H|H]; discriminate]).
  rewrite orb_true_iff, !bool_decide_eq_true. split.
  - intros [->| ->]; auto.
  - intros [[= ->]|[= ->]]; auto.
Qed.

Lemma truthy_string v path : v = JString path -> truthy v = true <-> path <> [].
Proof.
  intros ->. simpl. destruct path; split; try discriminate; try reflexivity.
  intros H. contradiction.
Qed.

(** X2. [main] exits with status 2 exactly when the input names the tool
    [Edit] or [Write] and a non-empty path that is not skipped, is a regular
    file and can be read, and the detectors find at least one violation in its
    lines; what it has written is then the header and the violations in
    order. *)
Theorem main_reports_iff (w : world) (err : list str) :
  main w = Exited 2 err <->
  exists entries input_entries path lines violations,
    stdin w = Parsed (JObject entries) /\
    (dict_get entries (s2l "tool_name") (JString []) = JString (s2l "Edit") \/
     dict_get entries (s2l "tool_name") (JString []) = JString (s2l "Write")) /\
    dict_get entries (s2l "tool_input") (JObject []) = JObject input_entries /\
    dict_get input_entries (s2l "file_path") (JString []) = JString path /\
    path <> [] /\
    should_skip (str_lower w) path = false /\
    isfile w path = true /\
    readlines w path = Some lines /\
    collect_violations lines = Ok violations /\
    violations <> [] /\
    err = header (basename w path) :: map render violations.
Proof.
  unfold main. cbv zeta. split.
  - destruct (stdin w) as [data|]; [|discriminate].
    destruct data as [| | | | |entries]; try (cbn [negb exit_code stderr]; discriminate).
    destruct (is_edit_or_write _) eqn:Htool; [|discriminate]. cbn [negb exit_code stderr].
    apply is_edit_or_write_spec in Htool.
    destruct (dict_get entries (s2l "tool_input") (JObject [])) as [| | | | |input_entries]
      eqn:Hinput; try (cbn [negb exit_code stderr]; discriminate).
    destruct (truthy _) eqn:Htruthy; [|discriminate]. cbn [negb exit_code stderr].
    destruct (dict_get input_entries (s2l "file_path") (JString [])) as [| | |path| |]
      eqn:Hpath; try (cbn [negb exit_code stderr]; discriminate).
    destruct (should_skip (str_lower w) path) eqn:Hskip; [discriminate|].
    destruct (isfile w path) eqn:Hfile; [|discriminate]. cbn [negb exit_code stderr].
    destruct (readlines w path) as [lines|] eqn:Hlines; [|discriminate].
    destruct (main_scan_eq (basename w path) lines) as (violations & Hcollect & ->).
    destruct (report_exit_code (basename w path) violations) as [[_ ->]|[Hne ->]];
      [discriminate|].
    cbn [negb exit_code stderr]. intros [= <-].
    exists entries, input_entries, path, lines, violations.
    repeat split; try assumption. apply (truthy_string _ path eq_refl), Htruthy.
  - intros (entries & input_entries & path & lines & violations & Hstdin & Htool & Hinput
            & Hpath & Hne & Hskip & Hfile & Hlines & Hcollect & Hvs & ->).
    apply is_edit_or_write_spec in Htool. rewrite Hstdin, Htool, Hinput, Hpath.
    apply (truthy_string _ path eq_refl) in Hne. rewrite Hne, Hskip, Hfile, Hlines.
    cbn [negb].
    destruct (main_scan_eq (basename w path) lines) as (violations' & Hcollect' & ->).
    assert (violations' = violations) by congruence. subst violations'.
    destruct (report_exit_code (basename w path) violations) as [[-> _]|[_ ->]];
      [contradiction | reflexivity].
Qed.

(** X3. Whenever [main] ends by [sys.exit], the status is 0, 1 or 2; it has
    written something only with status 2; and status 1 means the input was
    not valid JSON. *)
Theorem main_exit_status (w : world) (code : nat) (err : list str) :
  main w = Exited code err ->
  (code = 2 /\ err <> []) \/
  (code = 0 /\ err = []) \/
  (code = 1 /\ err = [] /\ stdin w = JSONDecodeError).
Proof.
  unfold main. cbv zeta.
  destruct (stdin w) as [data|]; [|intros [= <- <-]; auto].
  destruct data as [| | | | |entries]; try (cbn [negb exit_code stderr]; discriminate).
  destruct (is_edit_or_write _); cbn [negb exit_code stderr]; [|intros [= <- <-]; auto].
  destruct (dict_get entries (s2l "tool_input") (JObject [])) as [| | | | |input_entries];
    try (cbn [negb exit_code stderr]; discriminate).
  destruct (truthy _); cbn [negb exit_code stderr]; [|intros [= <- <-]; auto].
  destruct (dict_get input_entries (s2l "file_path") (JString [])) as [| | |path| |];
    try (cbn [negb exit_code stderr]; discriminate).
  destruct (should_skip (str_lower w) path); [intros [= <- <-]; auto|].
  destruct (isfile w path); cbn [negb exit_code stderr]; [|intros [= <- <-]; auto].
  destruct (readlines w path) as [lines|]; [|intros [= <- <-]; auto].
  destruct (main_scan_eq (basename w path) lines) as (violations & _ & ->).
  destruct (report_exit_code (basename w path) violations) as [[_ ->]|[_ ->]];
    cbn [negb exit_code stderr]; intros [= <- <-]; [right; left; auto | left; split; [reflexivity | discriminate]].
Qed.

(** X4. Once its input is parsed, [main] ends in an uncaught exception exactly
    when the parsed input has the wrong shape: it is not an object; or it names [Edit] or [Write] and
    its [tool_input] is not an object; or it does and the [file_path] there is
    a true value that is not a string. The exception is then
    [AttributeError]; no exception ever comes out of the detectors. *)
Theorem main_traceback_iff (w : world) (e : uncaught) :
  main w = Traceback e <->
  e = AttributeError /\
  exists data, stdin w = Parsed data /\
    (is_object data = false \/
     exists entries, data = JObject entries /\
       is_edit_or_write (dict_get entries (s2l "tool_name") (JString [])) = true /\
       (is_object (dict_get entries (s2l "tool_input") (JObject [])) = false \/
        exists input_entries,
          dict_get entries (s2l "tool_input") (JObject []) = JObject input_entries /\
          truthy (dict_get input_entries (s2l "file_path") (JString [])) = true /\
          is_string (dict_get input_entries (s2l "file_path") (JString [])) = false)).
Proof.
  unfold main. cbv zeta. split.
  - destruct (stdin w) as [data|]; [|discriminate].
    destruct data as [| | | | |entries];
      try (cbn [negb exit_code stderr]; intros [= <-]; split; [reflexivity|]; eexists; split; [reflexivity|left; reflexivity]).
    destruct (is_edit_or_write _) eqn:Htool; cbn [negb exit_code stderr]; [|discriminate].
    destruct (dict_get entries (s2l "tool_input") (JObject [])) as [| | | | |input_entries]
      eqn:Hinput;
      try (cbn [negb exit_code stderr]; intros [= <-]; split; [reflexivity|]; eexists; split; [reflexivity|right];
           exists entries; rewrite Hinput; repeat split; auto).
    destruct (truthy _) eqn:Htruthy; cbn [negb exit_code stderr]; [|discriminate].
    destruct (dict_get input_entries (s2l "file_path") (JString [])) as [| | |path| |]
      eqn:Hpath;
      try (cbn [negb exit_code stderr]; intros [= <-]; split; [reflexivity|]; eexists; split; [reflexivity|right];
           exists entries; rewrite Hinput; repeat split; auto;
           right; exists input_entries; rewrite Hpath; repeat split; auto).
    destruct (should_skip (str_lower w) path); [discriminate|].
    destruct (isfile w path); cbn [negb exit_code stderr]; [|discriminate].
    destruct (readlines w path) as [lines|]; [|discriminate].
    destruct (main_scan_eq (basename w path) lines) as (violations & _ & ->). discriminate.
  - intros (-> & data & -> & [Hdata | (entries & -> & Htool & Hrest)]).
    + destruct data; try reflexivity. discriminate.
    + rewrite Htool. cbn [negb exit_code stderr].
      destruct Hrest as [Hinput | (input_entries & -> & Htruthy & Hstring)].
      * destruct (dict_get entries (s2l "tool_input") (JObject [])); try reflexivity.
        discriminate.
      * rewrite Htruthy. cbn [negb exit_code stderr].
        destruct (dict_get input_entries (s2l "file_path") (JString [])); try reflexivity.
        discriminate.
Qed.

(** X2 on a request to scan a file of twelve deep commented lines. *)
Lemma main_reports_sample :
  main (sample_world (Parsed (edit_request (s2l "src/app.py"))) deep_commented_file)
  = Exited 2 sample_report.
Proof.
  apply (proj2 (main_reports_iff _ _)).
  exists [ (s2l "tool_name", JString (s2l "Edit"));
           (s2l "tool_input", JObject [ (s2l "file_path", JString (s2l "src/app.py")) ]) ],
         [ (s2l "file_path", JString (s2l "src/app.py")) ],
         (s2l "src/app.py"), deep_commented_file,
         [NestingTooDeep 0 5; NestingTooDeep 10 5; StaleCommentBlock 0 12].
  repeat split; try (vm_compute; reflexivity); try discriminate.
  left. vm_compute. reflexivity.
Defined.

(** X3 on the same input, and on input that is not JSON. *)
Lemma main_exit_status_sample :
  ((2 = 2 /\ sample_report <> []) \/ (2 = 0 /\ sample_report = []) \/
   (2 = 1 /\ sample_report = [] /\
    stdin (sample_world (Parsed (edit_request (s2l "src/app.py"))) deep_commented_file)
      = JSONDecodeError)) /\
  main (sample_world JSONDecodeError []) = Exited 1 [].
Proof.
  split; [|reflexivity].
  apply (main_exit_status
           (sample_world (Parsed (edit_request (s2l "src/app.py"))) deep_commented_file)).
  vm_compute. reflexivity.
Defined.

(** X4 on an input that is a JSON array, and on a request whose [file_path]
    is a number. *)
Lemma main_traceback_sample :
  main (sample_world (Parsed (JArray [])) []) = Traceback AttributeError /\
  main (sample_world
          (Parsed (JObject [ (s2l "tool_name", JString (s2l "Write"));
                             (s2l "tool_input",
                              JObject [ (s2l "file_path", JNumber true) ]) ])) [])
  = Traceback AttributeError.
Proof.
  split; apply (proj2 (main_traceback_iff _ _)); (split; [reflexivity|]);
    eexists; (split; [reflexivity|]).
  - left. reflexivity.
  - right. eexists. split; [reflexivity|]. split; [vm_compute; reflexivity|].
    right. eexists. split; [vm_compute; reflexivity|].
    split; vm_compute; reflexivity.
Defined.

(** ** The name of a function *)

Section MatcherValues.
Context {A : Type}.
Implicit Types (k : nat -> str -> option A) (a : A).

Lemma first_success (x y : option A) a :
  match x with Some b => Some b | None => y end = Some a -> x = Some a \/ y = Some a.
Proof. destruct x; auto. Qed.

Lemma star_run_sound p : forall s i k a,
  star_run p i s k = Some a ->
  exists w u, s = w ++ u /\ all_of p w /\ k (i + length w) u = Some a.
Proof.
  induction s as [|c s IH]; intros i k a H; simpl in H.
  - exists [], []. rewrite Nat.add_0_r. repeat split; [constructor | exact H].
  - destruct (p c) eqn:Hc.
    + apply first_success in H as [H|H].
      * apply IH in H as (w & u & -> & Hw & H). exists (c :: w), u.
        repeat split; [constructor; assumption|]. simpl. rewrite Nat.add_succ_r. exact H.
      * exists [], (c :: s). rewrite Nat.add_0_r. repeat split; [constructor | exact H].
    + exists [], (c :: s). rewrite Nat.add_0_r. repeat split; [constructor | exact H].
Qed.

Lemma bt_sound r : forall i s k a,
  bt r i s k = Some a ->
  exists w u, s = w ++ u /\ lang r i w /\ k (i + length w) u = Some a.
Proof.
  induction r as [| |p|r1 IH1 r2 IH2|r1 IH1 r2 IH2|p]; intros i s k a H; simpl in H.
  - exists [], s. rewrite Nat.add_0_r. repeat split. exact H.
  - destruct (Nat.eqb_spec i 0) as [->|]; [|discriminate]. exists [], s. repeat split. exact H.
  - destruct s as [|c s]; [discriminate|]. destruct (p c) eqn:Hc; [|discriminate].
    exists [c], s. simpl. rewrite Nat.add_1_r. eauto 6.
  - apply IH1 in H as (w1 & u1 & -> & H1 & H). apply IH2 in H as (w2 & u2 & -> & H2 & H).
    exists (w1 ++ w2), u2. rewrite <- app_assoc. repeat split.
    + exists w1, w2. auto.
    + rewrite length_app, Nat.add_assoc. exact H.
  - apply first_success in H as [H|H];
      [apply IH1 in H | apply IH2 in H]; destruct H as (w & u & -> & Hw & H);
      exists w, u; simpl; auto.
  - apply star_run_sound, H.
Qed.

Lemma search_from_sound r : forall s i k a,
  search_from r i s k = Some a ->
  exists before w u,
    s = before ++ w ++ u /\ lang r (i + length before) w /\
    k (i + length before + length w) u = Some a.
Proof.
  induction s as [|c s IH]; intros i k a H; simpl in H; apply first_success in H as [H|H].
  - apply bt_sound in H as (w & u & -> & Hw & H). exists [], w, u.
    rewrite Nat.add_0_r. auto.
  - discriminate.
  - apply bt_sound in H as (w & u & -> & Hw & H). exists [], w, u.
    rewrite Nat.add_0_r. auto.
  - apply IH in H as (before & w & u & -> & Hw & H). exists (c :: before), w, u.
    simpl. rewrite Nat.add_succ_r. auto.
Qed.

Lemma bt_Lit_app v : forall i s k, bt (Lit v) i (v ++ s) k = k (i + length v) s.
Proof.
  induction v as [|c v IH]; intros i s k; simpl.
  - rewrite Nat.add_0_r. reflexivity.
  - rewrite N.eqb_refl, IH, Nat.add_succ_r. reflexivity.
Qed.

Lemma bt_Lit_mismatch v : forall i s k, str_startswith v s = false -> bt (Lit v) i s k = None.
Proof.
  induction v as [|c v IH]; intros i s k H; simpl in *.
  - discriminate.
  - destruct s as [|d s]; [reflexivity|].
    destruct (N.eqb c d); simpl in *; [apply IH, H | reflexivity].
Qed.

Lemma star_run_longest p w : forall i u k a,
  all_of p w ->
  match u with [] => True | c :: _ => p c = false end ->
  k (i + length w) u = Some a ->
  star_run p i (w ++ u) k = Some a.
Proof.
  induction w as [|c w IH]; intros i u k a Hw Hu H; simpl in *.
  - rewrite Nat.add_0_r in H. destruct u as [|d u]; simpl; [exact H|].
    rewrite Hu. exact H.
  - inversion Hw as [|? ? Hc Hw']; subst. rewrite Hc.
    rewrite (IH (S i) u k a Hw' Hu); [reflexivity|].
    rewrite Nat.add_succ_r in H. exact H.
Qed.

Lemma bt_Plus_longest p w i u k a :
  w <> [] -> all_of p w ->
  match u with [] => True | c :: _ => p c = false end ->
  k (i + length w) u = Some a ->
  bt (Plus p) i (w ++ u) k = Some a.
Proof.
  intros Hne Hw Hu H. destruct w as [|c w]; [contradiction|].
  inversion Hw as [|? ? Hc Hw']; subst. simpl. rewrite Hc.
  apply star_run_longest; try assumption.
  simpl in H. rewrite Nat.add_succ_r in H. exact H.
Qed.

Lemma search_from_first r i s k a : bt r i s k = Some a -> search_from r i s k = Some a.
Proof. intros H. destruct s; cbn [search_from]; rewrite H; reflexivity. Qed.

End MatcherValues.

Lemma space_not_word c : is_space c = true -> is_word c = false.
Proof.
  unfold is_space, whitespace_ranges. cbn [in_ranges].
  rewrite !orb_true_iff, !andb_true_iff, !N.leb_le. intros H.
  assert (Hc : In c [9; 10; 11; 12; 13; 28; 29; 30; 31; 32; 133; 160; 5760; 8192; 8193;
                     8194; 8195; 8196; 8197; 8198; 8199; 8200; 8201; 8202; 8232; 8233;
                     8239; 8287; 12288]%N).
  { simpl. lia. }
  repeat (destruct Hc as [<-|Hc]; [vm_compute; reflexivity|]). destruct Hc.
Qed.

Lemma word_not_space c : is_word c = true -> is_space c = false.
Proof.
  intros Hw. destruct (is_space c) eqn:Hs; [|reflexivity].
  apply space_not_word in Hs. congruence.
Qed.

Lemma lang_name_prefix i w :
  lang name_prefix_pattern i w <->
  exists kw ws, w = kw ++ ws /\ In kw name_keywords /\ blanks1 ws.
Proof.
  unfold name_prefix_pattern. cbn [lang]. split.
  - intros (kw & ws & -> & Hkw & Hws).
    apply (lang_one_of (s2l "def") (List.tl name_keywords)) in Hkw.
    apply lang_Plus in Hws. eauto.
  - intros (kw & ws & -> & Hkw & Hws). exists kw, ws. repeat split.
    + apply (lang_one_of (s2l "def") (List.tl name_keywords)). exact Hkw.
    + apply lang_Plus. exact Hws.
Qed.

Lemma extract_name_split (line : str) :
  (extract_name line = s2l "anonymous" /\
   forall name, ~ named_after_keyword line name) \/
  named_after_keyword line (extract_name line).
Proof.
  unfold extract_name.
  destruct (search_from name_prefix_pattern 0 line _) as [name|] eqn:Hsearch.
  - right. apply search_from_sound in Hsearch as (before & w & u & -> & Hw & Hk).
    apply lang_name_prefix in Hw as (kw & ws & -> & Hkw & Hws).
    apply bt_sound in Hk as (name' & after & -> & Hname & Hk).
    apply lang_Plus in Hname. injection Hk as <-.
    replace (_ + length name' - _) with (length name') by lia.
    rewrite take_app_length.
    exists before, kw, ws, after.
    split; [rewrite <- !app_assoc; reflexivity|]. unfold identifier. tauto.
  - left. split; [reflexivity|].
    intros name (before & kw & ws & after & -> & Hkw & Hws & Hname).
    assert (Hsome : is_Some (search_from name_prefix_pattern 0
                               (before ++ kw ++ ws ++ name ++ after)
                               (fun j u => bt name_group_pattern j u
                                             (fun j' _ => Some (take (j' - j) u))))).
    { apply search_from_spec. exists before, (kw ++ ws ++ name ++ after).
      split; [reflexivity|]. exists (kw ++ ws), (name ++ after).
      split; [rewrite <- app_assoc; reflexivity|].
      split; [apply lang_name_prefix; eauto|].
      apply bt_spec. exists name, after. split; [reflexivity|].
      split; [apply lang_Plus; exact Hname | eauto]. }
    rewrite Hsearch in Hsome. destruct Hsome as [? ?]. discriminate.
Qed.

(** X6. The name taken from a start line is either a non-empty run of word
    characters that stands in the line after one of the keywords [def],
    [function], [func], [const], [let], [var] and at least one whitespace
    character, or the text [anonymous]. A line with no such place gives
    [anonymous]; a line with such a place gives a name that stands at one
    (which may itself read [anonymous]). *)
Theorem extract_name_cases (line : str) :
  ((extract_name line = s2l "anonymous" /\
    forall name, ~ named_after_keyword line name) \/
   named_after_keyword line (extract_name line)) /\
  ((forall name, ~ named_after_keyword line name) ->
   extract_name line = s2l "anonymous") /\
  ((exists name, named_after_keyword line name) ->
   named_after_keyword line (extract_name line)).
Proof.
  assert (H := extract_name_split line).
  split; [exact H|]. split.
  - intros Hnone. destruct H as [[H _]|H]; [exact H|].
    exfalso. exact (Hnone _ H).
  - intros [name Hname]. destruct H as [[_ H]|H]; [|exact H].
    exfalso. exact (H name Hname).
Qed.

(** X6 on the line [def anonymous():]: the name found after [def] is the text
    [anonymous] itself. *)
Lemma extract_name_of_def_anonymous :
  extract_name (s2l "def anonymous():" ++ [LF]) = s2l "anonymous" /\
  named_after_keyword (s2l "def anonymous():" ++ [LF])
    (extract_name (s2l "def anonymous():" ++ [LF])).
Proof.
  split; [vm_compute; reflexivity|].
  apply (proj2 (proj2 (extract_name_cases (s2l "def anonymous():" ++ [LF])))).
  exists (s2l "anonymous"), [], (s2l "def"), (s2l " "), (s2l "():" ++ [LF]).
  split; [reflexivity|]. split; [left; reflexivity|].
  split; (split; [discriminate | repeat constructor]).
Defined.

Lemma name_group_value j name tail :
  identifier name -> ends_word tail ->
  bt name_group_pattern j (name ++ tail) (fun j' _ => Some (take (j' - j) (name ++ tail)))
  = Some name.
Proof.
  intros [Hne Hname] Htail. apply bt_Plus_longest; try assumption.
  replace (j + length name - j) with (length name) by lia.
  rewrite take_app_length. reflexivity.
Qed.

Lemma name_prefix_at_keyword {A : Type} kw sp rest i (k : nat -> str -> option A) a :
  In kw name_keywords -> blanks1 sp ->
  match rest with [] => True | c :: _ => is_space c = false end ->
  k (i + length kw + length sp) rest = Some a ->
  bt name_prefix_pattern i (kw ++ sp ++ rest) k = Some a.
Proof.
  intros Hkw [Hne Hsp] Hrest Hk.
  assert (Hplus : bt (Plus is_space) (i + length kw) (sp ++ rest) k = Some a)
    by (apply bt_Plus_longest; assumption).
  assert (Ht : N.eqb 116 (hd 0%N sp) = false).
  { destruct sp as [|c sp]; [contradiction|]. cbn [hd].
    inversion Hsp as [|? ? Hc _]; subst.
    destruct (N.eqb_spec 116 c) as [<-|]; [discriminate | reflexivity]. }
  unfold name_prefix_pattern. cbn [bt Alts].
  destruct Hkw as [<-|[<-|[<-|[<-|[<-|[<-|[]]]]]]].
  - rewrite bt_Lit_app, Hplus. reflexivity.
  - rewrite (bt_Lit_mismatch (s2l "def")) by reflexivity.
    rewrite bt_Lit_app, Hplus. reflexivity.
  - rewrite (bt_Lit_mismatch (s2l "def")) by reflexivity.
    rewrite (bt_Lit_mismatch (s2l "function")).
    + rewrite bt_Lit_app, Hplus. reflexivity.
    + destruct sp as [|c sp]; [contradiction|]. cbn [hd] in Ht.
      change (str_startswith (s2l "function") (s2l "func" ++ (c :: sp) ++ rest))
        with (N.eqb 116 c && str_startswith (s2l "ion") (sp ++ rest)).
      rewrite Ht. reflexivity.
  - rewrite (bt_Lit_mismatch (s2l "def")) by reflexivity.
    rewrite (bt_Lit_mismatch (s2l "function")) by reflexivity.
    rewrite (bt_Lit_mismatch (s2l "func")) by reflexivity.
    rewrite bt_Lit_app, Hplus. reflexivity.
  - rewrite (bt_Lit_mismatch (s2l "def")) by reflexivity.
    rewrite (bt_Lit_mismatch (s2l "function")) by reflexivity.
    rewrite (bt_Lit_mismatch (s2l "func")) by reflexivity.
    rewrite (bt_Lit_mismatch (s2l "const")) by reflexivity.
    rewrite bt_Lit_app, Hplus. reflexivity.
  - rewrite (bt_Lit_mismatch (s2l "def")) by reflexivity.
    rewrite (bt_Lit_mismatch (s2l "function")) by reflexivity.
    rewrite (bt_Lit_mismatch (s2l "func")) by reflexivity.
    rewrite (bt_Lit_mismatch (s2l "const")) by reflexivity.
    rewrite (bt_Lit_mismatch (s2l "let")) by reflexivity.
    rewrite bt_Lit_app, Hplus. reflexivity.
Qed.

Lemma name_prefix_not_at_space {A : Type} c s i (k : nat -> str -> option A) :
  is_space c = true -> bt name_prefix_pattern i (c :: s) k = None.
Proof.
  intros Hc.
  assert (Hne : forall d, is_word d = true -> N.eqb d c = false).
  { intros d Hd. destruct (N.eqb_spec d c) as [->|]; [|reflexivity].
    apply space_not_word in Hc. congruence. }
  unfold name_prefix_pattern. cbn [bt Alts].
  rewrite !bt_Lit_mismatch; [reflexivity|..];
    cbn [s2l str_startswith]; rewrite Hne; reflexivity.
Qed.

Lemma search_name_skip_blanks {A : Type} ws : forall rest i (k : nat -> str -> option A),
  blanks ws ->
  search_from name_prefix_pattern i (ws ++ rest) k =
  search_from name_prefix_pattern (i + length ws) rest k.
Proof.
  induction ws as [|c ws IH]; intros rest i k Hws.
  - simpl. rewrite Nat.add_0_r. reflexivity.
  - inversion Hws as [|? ? Hc Hws']; subst.
    cbn [app search_from]. rewrite (name_prefix_not_at_space c (ws ++ rest) i k Hc).
    rewrite IH by exact Hws'. simpl. rewrite Nat.add_succ_r. reflexivity.
Qed.

(** X5. On a line that, after optional indentation, begins with one of the
    keywords, whitespace and an identifier that ends there, the name taken is
    that identifier: for [def NAME(...] it is [NAME]. *)
Theorem extract_name_after_keyword (ws kw sp name tail : str) :
  blanks ws -> In kw name_keywords -> blanks1 sp -> identifier name -> ends_word tail ->
  extract_name (ws ++ kw ++ sp ++ name ++ tail) = name.
Proof.
  intros Hws Hkw Hsp Hname Htail. unfold extract_name.
  rewrite search_name_skip_blanks by exact Hws.
  assert (Hbt : bt name_prefix_pattern (0 + length ws) (kw ++ sp ++ name ++ tail)
                  (fun j u => bt name_group_pattern j u
                                (fun j' _ => Some (take (j' - j) u))) = Some name).
  { apply name_prefix_at_keyword; try assumption.
    - destruct Hname as [Hne Hall]. destruct name as [|c name]; [contradiction|].
      simpl. inversion Hall; subst. apply word_not_space. assumption.
    - apply name_group_value; assumption. }
  rewrite (search_from_first _ _ _ _ _ Hbt). reflexivity.
Qed.

(** X5 on the line [    def scan_file(path):]. *)
Lemma extract_name_of_def_line :
  extract_name (s2l "    def scan_file(path):" ++ [LF]) = s2l "scan_file".
Proof.
  apply (extract_name_after_keyword (s2l "    ") (s2l "def") (s2l " ") (s2l "scan_file")
           (s2l "(path):" ++ [LF])).
  - repeat constructor.
  - left. reflexivity.
  - split; [discriminate | repeat constructor].
  - split; [discriminate | repeat constructor].
  - reflexivity.
Defined.

(** ** Which lines the nesting detector cites *)

Lemma is_deep_too_deep line : is_deep line = true <-> too_deep line.
Proof.
  unfold is_deep, too_deep. destruct (rstrip line) as [|c t].
  - split; [discriminate | intros [H _]; contradiction].
  - rewrite Nat.ltb_lt. split; [intros H; split; [discriminate | exact H] | tauto].
Qed.

Lemma sorted_snoc (l : list nat) (y : nat) :
  StronglySorted lt l -> Forall (fun x => x < y) l -> StronglySorted lt (l ++ [y]).
Proof.
  induction 1 as [|x l Hs IH Hx]; intros Hy; simpl.
  - repeat constructor.
  - inversion Hy; subst. constructor; [auto|].
    apply Forall_app. split; [exact Hx | repeat constructor; assumption].
Qed.

Lemma first_inv_init : first_inv [] (NdState [] ∅).
Proof. split; simpl; [intros j d [] | constructor | constructor]. Qed.

Lemma first_inv_step seen st line :
  nd_inv seen st -> first_inv seen st ->
  first_inv (seen ++ [line]) (nd_body st (length seen) line).
Proof.
  intros [Hhits Hreg Hnd Hdeep] [Hfirst Hsorted Hbelow]. rewrite nd_body_eq.
  assert (Hkeep : first_inv (seen ++ [line]) st).
  { split; [| exact Hsorted |].
    - intros j d Hin j' l' Hlt Hl' Hd. apply (Hfirst j d Hin j' l' Hlt); [|exact Hd].
      rewrite List.Forall_forall in Hbelow. specialize (Hbelow _ Hin). simpl in Hbelow.
      rewrite lookup_app_l in Hl' by lia. exact Hl'.
    - eapply List.Forall_impl; [|exact Hbelow]. intros v Hv. cbv beta in Hv.
      rewrite length_app. simpl. lia. }
  destruct (is_deep line); [|exact Hkeep].
  destruct (decide (length seen / 10 ∈ reported_regions st)) as [Hin|Hnin]; [exact Hkeep|].
  destruct Hkeep as [Hfirst' _ Hbelow']. split; cbn [nd_violations].
  - intros j d Hv. apply in_app_or in Hv as [Hv|[[= <- <-]|[]]]; [eauto|].
    intros j' l' Hlt Hl' Hd Heq. apply Hnin. rewrite <- Heq.
    rewrite lookup_app_l in Hl' by lia. eauto.
  - rewrite map_app. apply sorted_snoc; [exact Hsorted|].
    apply List.Forall_map. exact Hbelow.
  - apply Forall_app. split; [exact Hbelow'|].
    repeat constructor. simpl. rewrite length_app. simpl. lia.
Qed.

Lemma first_inv_loop lines : forall seen st,
  nd_inv seen st -> first_inv seen st ->
  first_inv (seen ++ lines) (for_enumerate nd_body (length seen) lines st).
Proof.
  induction lines as [|line rest IH]; intros seen st Hnd Hfirst; simpl.
  - rewrite app_nil_r. exact Hfirst.
  - replace (seen ++ line :: rest) with ((seen ++ [line]) ++ rest)
      by (rewrite <- app_assoc; reflexivity).
    replace (S (length seen)) with (length (seen ++ [line]))
      by (rewrite length_app; simpl; lia).
    apply IH; [apply nd_inv_step, Hnd | apply first_inv_step; assumption].
Qed.

Lemma check_nesting_depth_first lines :
  first_inv lines (for_enumerate nd_body 0 lines (NdState [] ∅)).
Proof. apply (first_inv_loop lines [] _ nd_inv_init first_inv_init). Qed.

(** X7. The nesting detector cites line [j] with depth [d] exactly when line
    [j] is not blank, has depth [d] above the maximum, and no earlier such
    line lies in the same 10-line region: the first too-deep line of each
    region, and no other. The violations come in increasing line order. *)
Theorem nesting_cites_first_deep_line_of_region (lines : list str) :
  (forall j d,
     In (NestingTooDeep j d) (check_nesting_depth lines) <->
     exists l : str,
       lines !! j = Some l /\ too_deep l /\ d = nesting_depth l /\
       forall j' (l' : str),
         j' < j -> lines !! j' = Some l' -> too_deep l' -> j' / 10 <> j / 10) /\
  StronglySorted lt (map cited_index (check_nesting_depth lines)).
Proof.
  destruct (check_nesting_depth_inv lines) as [Hhits Hreg Hnd Hdeep].
  destruct (check_nesting_depth_first lines) as [Hfirst Hsorted _].
  unfold check_nesting_depth. split; [|exact Hsorted].
  intros j d. split.
  - intros Hin. destruct (Hhits _ Hin) as (j0 & l & [= -> ->] & Hl & Hd).
    exists l. split; [exact Hl|]. split; [apply is_deep_too_deep, Hd|].
    split; [reflexivity|]. intros j' l' Hlt Hl' Hd'.
    apply (Hfirst _ _ Hin j' l' Hlt Hl'). apply is_deep_too_deep, Hd'.
  - intros (l & Hl & Hd & -> & Hnone). apply is_deep_too_deep in Hd.
    destruct (proj1 (Hreg _) (Hdeep j l Hl Hd)) as (v & Hv & Hr).
    destruct (Hhits v Hv) as (j0 & l0 & -> & Hl0 & Hd0). simpl in Hr.
    destruct (Nat.lt_trichotomy j0 j) as [Hlt|[->|Hgt]].
    + exfalso. apply (Hnone j0 l0 Hlt Hl0); [apply is_deep_too_deep, Hd0 | exact Hr].
    + assert (l0 = l) by congruence. subst l0. exact Hv.
    + exfalso. apply (Hfirst _ _ Hv j l Hgt Hl Hd). symmetry. exact Hr.
Qed.

(** ** The size of the report *)

Lemma long_spans_bound lines : forall i eof,
  eof = i + length lines ->
  (MAX_FUNCTION_LINES + 1) * length (List.filter too_long (spans_from i lines eof))
  + next_start i lines eof <= eof.
Proof.
  unfold MAX_FUNCTION_LINES.
  induction lines as [|line rest IH]; intros i eof Heof; simpl in Heof.
  - unfold next_start. simpl. lia.
  - specialize (IH (S i) eof ltac:(lia)).
    assert (Hb := next_start_bounds rest (S i) eof ltac:(lia)).
    change (next_start i (line :: rest) eof)
      with (hd eof (if is_func_start line then i :: start_indices (S i) rest
                    else start_indices (S i) rest)).
    cbn [spans_from].
    destruct (is_func_start line); [|exact IH].
    cbn [List.filter hd].
    change (too_long (Span (extract_name line) i (next_start (S i) rest eof)))
      with (50 <? next_start (S i) rest eof - i).
    destruct (Nat.ltb_spec 50 (next_start (S i) rest eof - i)); cbn [length]; lia.
Qed.

Lemma long_runs_bound lines : forall i pending,
  (MAX_COMMENTED_BLOCK + 1) * length (List.filter long_run (runs_from i lines pending))
  <= pending + length lines + 1.
Proof.
  unfold MAX_COMMENTED_BLOCK.
  assert (Hfirst : forall i pending,
            11 * length (List.filter long_run
                           (if 0 <? pending then [(i - pending, pending)] else []))
            <= pending + 1).
  { intros i pending. destruct (0 <? pending); cbn [List.filter length]; [|lia].
    unfold long_run, MAX_COMMENTED_BLOCK. cbn [snd].
    destruct (Nat.leb_spec 10 pending); cbn [length]; lia. }
  induction lines as [|line rest IH]; intros i pending; cbn [runs_from length].
  - specialize (Hfirst i pending). lia.
  - destruct (is_code_comment line).
    + specialize (IH (S i) (S pending)). lia.
    + rewrite List.filter_app, length_app.
      specialize (IH (S i) 0). specialize (Hfirst i pending). lia.
Qed.

Lemma nesting_count_bound lines :
  10 * length (check_nesting_depth lines) <= length lines + 9.
Proof.
  destruct (check_nesting_depth_inv lines) as [Hhits _ Hnd _].
  unfold check_nesting_depth.
  set (vs := nd_violations _) in *.
  assert (Hincl : incl (map region_of vs) (seq 0 ((length lines + 9) / 10))).
  { intros r Hr. apply in_map_iff in Hr as (v & <- & Hv).
    destruct (Hhits v Hv) as (j & l & -> & Hl & _). apply lookup_lt_Some in Hl.
    apply in_seq. change (region_of (NestingTooDeep j (nesting_depth l))) with (j / 10).
    split; [lia|]. rewrite Nat.add_0_l.
    apply Nat.Div0.div_lt_upper_bound.
    assert (H := Nat.Div0.mul_div_le (length lines + 9) 10).
    assert (H' := Nat.Div0.div_mod (length lines + 9) 10).
    assert (H'' := Nat.mod_upper_bound (length lines + 9) 10 ltac:(lia)). lia. }
  apply NoDup_incl_length in Hincl; [|apply NoDup_ListNoDup, Hnd].
  rewrite length_map, length_seq in Hincl.
  assert (H := Nat.Div0.mul_div_le (length lines + 9) 10). lia.
Qed.

(** X8. The report cannot flood: a scan returns at most one function-size
    violation per 51 lines of the file, at most one nesting violation per
    started group of 10 lines, and at most one comment-run violation per 11
    lines (counting one line past the end). A file of 50 lines or fewer gets
    no function-size violation. *)
Theorem report_size_bounds (lines : list str) :
  (MAX_FUNCTION_LINES + 1) * length (check_function_size lines) <= length lines /\
  10 * length (check_nesting_depth lines) <= length lines + 9 /\
  (exists stale,
     check_commented_blocks lines = Ok stale /\
     (MAX_COMMENTED_BLOCK + 1) * length stale <= length lines + 1) /\
  (length lines <= MAX_FUNCTION_LINES -> check_function_size lines = []).
Proof.
  assert (Hfs : (MAX_FUNCTION_LINES + 1) * length (check_function_size lines)
                <= length lines).
  { rewrite check_function_size_spans, length_map, function_spans_spans_from.
    assert (H := long_spans_bound lines 0 (length lines) eq_refl). lia. }
  split; [exact Hfs|]. split; [apply nesting_count_bound|]. split.
  - eexists. split; [apply check_commented_blocks_runs|].
    rewrite length_map. assert (H := long_runs_bound lines 0 0). lia.
  - intros Hshort. unfold MAX_FUNCTION_LINES in *.
    destruct (check_function_size lines); [reflexivity | simpl in Hfs; lia].
Qed.

(** ** Lines that differ in surrounding whitespace *)

Lemma lstrip_blanks (ws s : str) : blanks ws -> lstrip (ws ++ s) = lstrip s.
Proof.
  intros H. induction H as [|c ws Hc _ IH]; simpl; [reflexivity|].
  rewrite Hc. exact IH.
Qed.

Lemma lstrip_all_blanks (ws : str) : blanks ws -> lstrip ws = [].
Proof.
  intros H. induction H as [|c ws Hc _ IH]; simpl; [reflexivity|].
  rewrite Hc. exact IH.
Qed.

Lemma lstrip_app (s t : str) :
  lstrip (s ++ t) = match lstrip s with [] => lstrip t | _ :: _ => lstrip s ++ t end.
Proof.
  induction s as [|c s IH]; simpl; [destruct (lstrip t); reflexivity|].
  destruct (is_space c); [exact IH | reflexivity].
Qed.

Lemma rstrip_app_blanks (s ws : str) : blanks ws -> rstrip (s ++ ws) = rstrip s.
Proof.
  intros Hws. induction s as [|c s IH]; simpl.
  - apply rstrip_nil. exact Hws.
  - rewrite IH. reflexivity.
Qed.

Lemma strip_padding (line padded : str) : padding_of line padded -> strip padded = strip line.
Proof.
  intros (ws & ws' & Hws & Hws' & ->). unfold strip.
  rewrite lstrip_blanks by exact Hws. rewrite lstrip_app.
  destruct (lstrip line) as [|c t] eqn:Hl.
  - rewrite lstrip_all_blanks by exact Hws'. reflexivity.
  - apply rstrip_app_blanks. exact Hws'.
Qed.

Lemma is_code_comment_padding (line padded : str) :
  padding_of line padded -> is_code_comment padded = is_code_comment line.
Proof. intros H. unfold is_code_comment. rewrite (strip_padding _ _ H). reflexivity. Qed.

Lemma runs_from_padding (lines padded : list str) :
  Forall2 padding_of lines padded ->
  forall i pending, runs_from i padded pending = runs_from i lines pending.
Proof.
  induction 1 as [|line line' lines padded Hline _ IH]; intros i pending; simpl.
  - reflexivity.
  - rewrite (is_code_comment_padding _ _ Hline), !IH. reflexivity.
Qed.

(** X9. Indentation and trailing whitespace never change the comment-run
    report: a line and the same line with whitespace added in front or behind
    are classified alike, and a file whose lines are re-padded in this way
    gets the same comment-run violations. *)
Theorem comment_runs_ignore_padding :
  (forall line padded : str,
     padding_of line padded -> is_code_comment padded = is_code_comment line) /\
  (forall lines padded : list str,
     Forall2 padding_of lines padded ->
     check_commented_blocks padded = check_commented_blocks lines).
Proof.
  split; [exact is_code_comment_padding|].
  intros lines padded H.
  rewrite !check_commented_blocks_runs, (runs_from_padding _ _ H). reflexivity.
Qed.

(** X9 on one line: [# import foo] and the same text indented by a tab and
    followed by two spaces and the line end. *)
Lemma comment_runs_ignore_padding_sample :
  is_code_comment ([TAB] ++ s2l "# import foo" ++ (s2l "  " ++ [LF]))
  = is_code_comment (s2l "# import foo").
Proof.
  apply (proj1 comment_runs_ignore_padding).
  exists [TAB], (s2l "  " ++ [LF]). repeat split; repeat constructor.
Defined.

(** ** Indentation and function starts *)

Lemma is_func_start_shape (line : str) : is_func_start line = true <-> func_start_shape line.
Proof.
  unfold is_func_start, func_start_shape. rewrite re_search_spec.
  unfold func_pattern. cbn [Seqs lang]. split.
  - intros (before & w & u & -> & w1 & w2 & -> & (Hpos & ->) & ws & w4 & -> & Hws
            & sig & w6 & -> & Hsig & ->).
    apply length_zero_iff_nil in Hpos as ->.
    exists ws, (sig ++ u). split; [simpl; rewrite app_nil_r, <- app_assoc; reflexivity|].
    split; [exact Hws|]. apply (prefix_match_signature (0 + 0 + length ws)). eauto.
  - intros (ws & rest & -> & Hws & Hsig).
    apply (prefix_match_signature (0 + 0 + length ws)) in Hsig as (sig & u & -> & Hsig).
    exists [], (ws ++ sig), u. split; [simpl; rewrite <- app_assoc; reflexivity|].
    exists [], (ws ++ sig). repeat split.
    exists ws, sig. repeat split; [exact Hws|].
    exists sig, []. rewrite app_nil_r. auto.
Qed.

Lemma optional_word_head kw w (rest : str) :
  optional_word kw w ->
  w = [] \/ exists t, w ++ rest = s2l kw ++ t.
Proof.
  intros [->|(sp & -> & _)]; [left; reflexivity | right].
  exists (sp ++ rest). rewrite <- app_assoc. reflexivity.
Qed.

Lemma signature_head (s : str) :
  signature_shape s -> exists c t, s = c :: t /\ is_space c = false.
Proof.
  assert (Hlit : forall v : string, forall t : str,
            match s2l v with [] => False | c :: _ => is_space c = false end ->
            exists c t', s2l v ++ t = c :: t' /\ is_space c = false).
  { intros v t H. destruct (s2l v) as [|c v']; [contradiction|]. simpl. eauto. }
  intros [(t & ->)|[(t & ->)|[(t & ->)|[Hb|[(t & ->)|Hm]]]]];
    try (apply Hlit; reflexivity).
  - destruct Hb as (e & a & f & kw & s1 & name & s2 & tail & -> & He & Ha & Hf & Hkw & _).
    destruct (optional_word_head _ e (a ++ f ++ kw ++ s1 ++ name ++ s2 ++ s2l "=" ++ tail) He)
      as [->|(t & ->)]; [|apply Hlit; reflexivity].
    destruct (optional_word_head _ a (f ++ kw ++ s1 ++ name ++ s2 ++ s2l "=" ++ tail) Ha)
      as [->|(t & ->)]; [|apply Hlit; reflexivity].
    destruct (optional_word_head _ f (kw ++ s1 ++ name ++ s2 ++ s2l "=" ++ tail) Hf)
      as [->|(t & ->)]; [|apply Hlit; reflexivity].
    cbn [app]. destruct Hkw as [->|[->| ->]]; apply Hlit; reflexivity.
  - destruct Hm as (vis & s1 & st & a & name & s2 & tail & -> & Hvis & _).
    destruct Hvis as [->|[->| ->]]; apply Hlit; reflexivity.
Qed.

Lemma blanks_prefix_unique (ws ws2 line : str) (c : N) (t : str) :
  blanks ws -> blanks ws2 -> is_space c = false ->
  ws ++ line = ws2 ++ c :: t ->
  exists ws3, line = ws3 ++ c :: t /\ blanks ws3.
Proof.
  intros Hws. revert ws2. induction Hws as [|a ws Ha _ IH]; intros ws2 Hws2 Hc H.
  - exists ws2. auto.
  - destruct Hws2 as [|b ws2 Hb Hws2]; simpl in H.
    + injection H as -> _. congruence.
    + injection H as _ H. apply (IH ws2 Hws2 Hc H).
Qed.

Lemma signature_shape_extend (s tail : str) :
  signature_shape s -> signature_shape (s ++ tail).
Proof.
  assert (Hlit : forall v : str, starts_with v s -> starts_with v (s ++ tail)).
  { intros v (t & ->). exists (t ++ tail). rewrite <- app_assoc. reflexivity. }
  unfold signature_shape. intros [H|[H|[H|[H|[H|H]]]]]; auto 7.
  - do 3 right. left.
    destruct H as (e & a & f & kw & s1 & name & s2 & t & -> & H).
    exists e, a, f, kw, s1, name, s2, (t ++ tail). split; [|exact H].
    rewrite <- !app_assoc. reflexivity.
  - do 5 right.
    destruct H as (vis & s1 & st & a & name & s2 & t & -> & H).
    exists vis, s1, st, a, name, s2, (t ++ tail). split; [|exact H].
    rewrite <- !app_assoc. reflexivity.
Qed.

(** X10. Whether a line is a function start does not depend on its
    indentation, nor on what follows the signature: adding whitespace in
    front changes nothing, and a function start stays one whatever is appended
    to it. *)
Theorem func_start_ignores_indentation :
  (forall ws line : str, blanks ws -> is_func_start (ws ++ line) = is_func_start line) /\
  (forall line tail : str,
     is_func_start line = true -> is_func_start (line ++ tail) = true).
Proof.
  split.
  - intros ws line Hws.
    assert (Hiff : is_func_start (ws ++ line) = true <-> is_func_start line = true).
    { rewrite !is_func_start_shape. unfold func_start_shape. split.
      - intros (ws2 & rest & Heq & Hws2 & Hsig).
        destruct (signature_head rest Hsig) as (c & t & -> & Hc).
        destruct (blanks_prefix_unique ws ws2 line c t Hws Hws2 Hc Heq) as (ws3 & -> & Hws3).
        eauto.
      - intros (ws2 & rest & -> & Hws2 & Hsig). exists (ws ++ ws2), rest.
        split; [rewrite app_assoc; reflexivity|]. split; [|exact Hsig].
        apply Forall_app. split; assumption. }
    destruct (is_func_start (ws ++ line)), (is_func_start line); try reflexivity.
    + symmetry. apply Hiff. reflexivity.
    + apply Hiff. reflexivity.
  - intros line tail H. apply is_func_start_shape in H as (ws & rest & -> & Hws & Hsig).
    apply is_func_start_shape. exists ws, (rest ++ tail).
    split; [rewrite app_assoc; reflexivity|]. split; [exact Hws|].
    apply signature_shape_extend, Hsig.
Qed.

(** X10 on the line [const total = (a, b) =>], indented by two tabs. *)
Lemma func_start_ignores_indentation_sample :
  is_func_start (repeat TAB 2 ++ s2l "const total = (a, b) =>")
  = is_func_start (s2l "const total = (a, b) =>").
Proof.
  apply (proj1 func_start_ignores_indentation). repeat constructor.
Defined.

(** ** Lines in front of the first function *)

Lemma start_indices_shift n lines : forall i,
  start_indices (n + i) lines = map (Nat.add n) (start_indices i lines).
Proof.
  induction lines as [|line rest IH]; intros i; simpl; [reflexivity|].
  rewrite <- Nat.add_succ_r, IH. destruct (is_func_start line); reflexivity.
Qed.

Lemma next_start_shift n lines i eof :
  next_start (n + i) lines (n + eof) = n + next_start i lines eof.
Proof.
  unfold next_start. rewrite start_indices_shift.
  destruct (start_indices i lines); reflexivity.
Qed.

Lemma spans_from_shift n lines eof : forall i,
  spans_from (n + i) lines (n + eof) = map (shift_span n) (spans_from i lines eof).
Proof.
  induction lines as [|line rest IH]; intros i; simpl; [reflexivity|].
  rewrite <- Nat.add_succ_r, IH, next_start_shift.
  destruct (is_func_start line); reflexivity.
Qed.

Lemma too_long_shift n sp : too_long (shift_span n sp) = too_long sp.
Proof.
  unfold too_long, span_length, shift_span. cbn [start_line end_line].
  replace (n + end_line sp - (n + start_line sp)) with (end_line sp - start_line sp) by lia.
  reflexivity.
Qed.

Lemma filter_too_long_shift n spans :
  List.filter too_long (map (shift_span n) spans)
  = map (shift_span n) (List.filter too_long spans).
Proof.
  induction spans as [|sp spans IH]; simpl; [reflexivity|].
  rewrite too_long_shift, IH. destruct (too_long sp); reflexivity.
Qed.

Lemma span_violation_shift n sp :
  span_violation (shift_span n sp) = shift_violation n (span_violation sp).
Proof.
  unfold span_violation, span_length, shift_span. cbn [start_line end_line span_name].
  replace (n + end_line sp - (n + start_line sp)) with (end_line sp - start_line sp) by lia.
  reflexivity.
Qed.

(** X11. Lines in front of the first function start are counted in no
    function: the function-size report of a file that begins with [n] lines,
    none of them a function start, is the report of the rest of the file with
    every cited line moved down by [n]; and a file with no function start at
    all has no function-size violation, however long it is. *)
Theorem leading_lines_shift_function_report :
  (forall pre lines : list str,
     (forall l, In l pre -> is_func_start l = false) ->
     check_function_size (pre ++ lines)
     = map (shift_violation (length pre)) (check_function_size lines)) /\
  (forall lines : list str,
     (forall l, In l lines -> is_func_start l = false) ->
     check_function_size lines = []).
Proof.
  split.
  - intros pre lines Hpre.
    rewrite !check_function_size_spans, !function_spans_spans_from.
    rewrite spans_from_skip by exact Hpre. rewrite length_app.
    rewrite <- (Nat.add_0_r (0 + length pre)), Nat.add_0_l.
    rewrite spans_from_shift, filter_too_long_shift, !map_map.
    apply map_ext. intros sp. apply span_violation_shift.
  - intros lines H.
    rewrite check_function_size_spans, function_spans_spans_from.
    rewrite spans_from_none by exact H. reflexivity.
Qed.

(** X11 on the file of 60 lines with three import lines put in front. *)
Lemma leading_lines_shift_sample :
  check_function_size (repeat (s2l "import os" ++ [LF]) 3 ++ sixty_line_function)
  = [FunctionTooLong 3 (s2l "foo") 60].
Proof.
  rewrite (proj1 leading_lines_shift_function_report).
  - vm_compute. reflexivity.
  - intros l Hl. apply repeat_spec in Hl. subst l. reflexivity.
Defined.

(** X7 on the file of twelve deep lines: line 11 is cited, being the first
    too-deep line of the second region. *)
Lemma nesting_cites_line_eleven :
  In (NestingTooDeep 10 5) (check_nesting_depth deep_commented_file).
Proof.
  apply (proj1 (nesting_cites_first_deep_line_of_region deep_commented_file) 10 5).
  exists (repeat TAB 5 ++ s2l "# import foo" ++ [LF]).
  split; [reflexivity|]. split; [split; [discriminate | vm_compute; lia]|].
  split; [reflexivity|].
  intros j' l' Hlt _ _. rewrite (Nat.div_small j' 10) by lia. discriminate.
Defined.

(** X8 on a file of five lines: no function-size violation. *)
Lemma short_file_has_no_function_violation :
  check_function_size two_function_file = [].
Proof.
  apply (proj2 (proj2 (proj2 (report_size_bounds two_function_file)))).
  vm_compute. lia.
Defined.
